(** * Collaborative canvas: the server-side synchronisation core

  A shallow embedding of the three server modules of the repository

  - [drawing-state.js]  (class [DrawingStateManager]): per-room canvas
    snapshot, bounded undo/redo history and raw drawing log;
  - [rooms.js]          (class [RoomManager]): room membership;
  - [server.js]         (the Socket.io event handlers): the router that
    turns inbound client events into store updates and outbound events;

  followed by the properties of the specification stated over it. *)

From Stdlib Require Import ZArith Lia.
From stdpp Require Import gmap strings list fin_maps pretty.

Local Open Scope Z_scope.
#[local] Set Warnings "-register-all".

(** ** JavaScript values

  Event payloads and canvas snapshots are untyped JavaScript values.  The
  handlers only read named properties of them and test them for
  truthiness, so this is the fragment that is modelled.  Numbers are the
  integer-valued ones. *)
Module Js.

Inductive value : Type :=
| Undefined
| Null
| Bool (b : bool)
| Num (n : Z)
| Str (s : string)
| Arr (items : list value)
| Obj (fields : list (string * value)).

(** [if (v)]: JavaScript's ToBoolean. *)
Definition truthy (v : value) : bool :=
  match v with
  | Undefined | Null => false
  | Bool b => b
  | Num n => negb (n =? 0)
  | Str s => negb (String.eqb s "")
  | Arr _ | Obj _ => true
  end.

(** Lookup of a key in an object literal's field list. *)
Fixpoint field (k : string) (fields : list (string * value)) : option value :=
  match fields with
  | [] => None
  | (k', v) :: rest => if String.eqb k k' then Some v else field k rest
  end.

(** [v.k] for the property names the handlers read ([point], [points],
    [path], [x], [y], [canvasState]): reading a property of [undefined]
    or [null] raises a TypeError ([None]); a primitive or an array has no
    such property and an object may lack it, which gives [undefined]. *)
Definition get (k : string) (v : value) : option value :=
  match v with
  | Undefined | Null => None
  | Obj fields => Some (default Undefined (field k fields))
  | Bool _ | Num _ | Str _ | Arr _ => Some Undefined
  end.

(** [Array.prototype.slice(start, end)] on a list: a negative index counts
    from the end, and both indices are clamped to the array. *)
Definition clamp (len i : Z) : Z :=
  if decide (i < 0) then Z.max (len + i) 0 else Z.min i len.

Definition slice {A : Type} (l : list A) (start end_ : Z) : list A :=
  let len := Z.of_nat (length l) in
  let k := clamp len start in
  let final := clamp len end_ in
  take (Z.to_nat (final - k)) (drop (Z.to_nat k) l).

(** [l.slice(start)]: the end defaults to the length. *)
Definition slice_from {A : Type} (l : list A) (start : Z) : list A :=
  slice l start (Z.of_nat (length l)).

(** [l[i]]: [None] stands for [undefined] (index out of range). *)
Definition index {A : Type} (l : list A) (i : Z) : option A :=
  if decide (i < 0) then None else l !! Z.to_nat i.

(** The result of a call that may raise. *)
Inductive outcome (A : Type) : Type :=
| Returned (a : A)
| Threw.
Global Arguments Returned {A} a.
Global Arguments Threw {A}.

End Js.

(** ** drawing-state.js: the canvas history store *)
Module DrawingStateManager.

Import Js.

(** An element of [room.history]: [{state, timestamp}], with
    [type: 'clear'] on the entry pushed by [clearCanvas]. *)
Record entry : Type := Entry {
  state : value;
  timestamp : Z;
  type : option string
}.

(** An element of [room.drawings], as [addDrawing] builds it. *)
Record drawing : Type := Drawing {
  d_userId : string;
  d_path : value;
  d_id : string;
  d_timestamp : Z
}.

(** The per-room record created by [initRoom]. *)
Record room : Type := Room {
  canvasState : value;
  drawings : list drawing;
  history : list entry;
  historyIndex : Z;
  createdAt : Z
}.

(** [this.maxHistorySize]. *)
Definition maxHistorySize : Z := 100.

(** [this.rooms]: a Map from room id to room record. *)
Abbreviation rooms := (gmap string room).

Definition set_canvasState (v : value) (r : room) : room :=
  Room v (drawings r) (history r) (historyIndex r) (createdAt r).
Definition set_drawings (d : list drawing) (r : room) : room :=
  Room (canvasState r) d (history r) (historyIndex r) (createdAt r).
Definition set_history (h : list entry) (r : room) : room :=
  Room (canvasState r) (drawings r) h (historyIndex r) (createdAt r).
Definition set_historyIndex (i : Z) (r : room) : room :=
  Room (canvasState r) (drawings r) (history r) i (createdAt r).

Definition len {A : Type} (l : list A) : Z := Z.of_nat (length l).

(** [initRoom(roomId)]: the room record, created on first touch.  [now] is
    the reading of [Date.now()]. *)
Definition new_room (now : Z) : room := Room Null [] [] (-1) now.

Definition initRoom (now : Z) (roomId : string) (rs : rooms) : rooms * room :=
  match rs !! roomId with
  | Some r => (rs, r)
  | None => (<[roomId := new_room now]> rs, new_room now)
  end.

(** The record [initRoom] returns for a room. *)
Definition the_room (now : Z) (roomId : string) (rs : rooms) : room :=
  default (new_room now) (rs !! roomId).

(** [getCanvasState(roomId)]. *)
Definition getCanvasState (now : Z) (roomId : string) (rs : rooms)
  : rooms * value :=
  let '(rs, r) := initRoom now roomId rs in (rs, canvasState r).

(** The body of [setCanvasState] on the room record. *)
Definition setCanvasState_room (now : Z) (canvasDataURL : value) (r : room)
  : room :=
  (* Remove future history if we're not at the end *)
  let r :=
    if decide (historyIndex r < len (history r) - 1)
    then set_history (slice (history r) 0 (historyIndex r + 1)) r
    else r in
  (* Add to history *)
  let r := set_history (history r ++ [Entry canvasDataURL now None]) r in
  let r := set_historyIndex (historyIndex r + 1) r in
  (* Limit history size *)
  let r :=
    if decide (len (history r) > maxHistorySize)
    then set_historyIndex (historyIndex r - 1) (set_history (tail (history r)) r)
    else r in
  (* Update current state *)
  set_canvasState canvasDataURL r.

Definition setCanvasState (now : Z) (roomId : string) (canvasDataURL : value)
    (rs : rooms) : rooms :=
  let '(rs, r) := initRoom now roomId rs in
  <[roomId := setCanvasState_room now canvasDataURL r]> rs.

(** [addDrawing(roomId, drawing)]: [drawing] is the [{userId, path,
    timestamp}] object of the router, whose [timestamp] is overwritten;
    [rnd] is the text of the [Math.random()] draw.  The one reading [now]
    stands for the separate [Date.now()] calls of a run (the id, the
    timestamp, the creation time of a new room), which the code does not
    tie to each other; the theorems on the log speak of the user id and
    the path of an entry only. *)
Definition addDrawing_room (now : Z) (rnd : string) (userId : string)
    (path : value) (r : room) : room :=
  let d := Drawing userId path (pretty now +:+ "_" +:+ rnd) now in
  let r := set_drawings (drawings r ++ [d]) r in
  (* Limit drawings history *)
  if decide (len (drawings r) > maxHistorySize * 2)
  then set_drawings (slice_from (drawings r) (- maxHistorySize)) r
  else r.

Definition addDrawing (now : Z) (rnd : string) (roomId : string)
    (userId : string) (path : value) (rs : rooms) : rooms * bool :=
  let '(rs, r) := initRoom now roomId rs in
  (<[roomId := addDrawing_room now rnd userId path r]> rs, true).

(** [getDrawings(roomId)]. *)
Definition getDrawings (roomId : string) (rs : rooms) : list drawing :=
  match rs !! roomId with
  | None => []
  | Some r => drawings r
  end.

(** [undo(roomId)].  The index is decremented before the entry is read, so
    when there is no entry at the new index the read of [.state] raises
    with the index already moved. *)
Definition undo_room (r : room) : room * outcome value :=
  if decide (historyIndex r > 0) then
    let r := set_historyIndex (historyIndex r - 1) r in
    match index (history r) (historyIndex r) with
    | Some previousState =>
        (set_canvasState (state previousState) r,
         Returned (state previousState))
    | None => (r, Threw)
    end
  else (r, Returned Null).

Definition undo (roomId : string) (rs : rooms) : rooms * outcome value :=
  match rs !! roomId with
  | None => (rs, Returned Null)
  | Some r =>
      let '(r', res) := undo_room r in (<[roomId := r']> rs, res)
  end.

(** [redo(roomId)]. *)
Definition redo_room (r : room) : room * outcome value :=
  if decide (historyIndex r < len (history r) - 1) then
    let r := set_historyIndex (historyIndex r + 1) r in
    match index (history r) (historyIndex r) with
    | Some nextState =>
        (set_canvasState (state nextState) r, Returned (state nextState))
    | None => (r, Threw)
    end
  else (r, Returned Null).

Definition redo (roomId : string) (rs : rooms) : rooms * outcome value :=
  match rs !! roomId with
  | None => (rs, Returned Null)
  | Some r =>
      let '(r', res) := redo_room r in (<[roomId := r']> rs, res)
  end.

(** [clearCanvas(roomId)]. *)
Definition clearCanvas_room (now : Z) (r : room) : room :=
  let r := set_drawings [] r in
  let r := set_canvasState Null r in
  (* Add clear operation to history *)
  let r := set_history (history r ++ [Entry Null now (Some "clear")]) r in
  set_historyIndex (historyIndex r + 1) r.

Definition clearCanvas (now : Z) (roomId : string) (rs : rooms)
  : rooms * bool :=
  let '(rs, r) := initRoom now roomId rs in
  (<[roomId := clearCanvas_room now r]> rs, true).

(** [deleteRoom(roomId)]. *)
Definition deleteRoom (roomId : string) (rs : rooms) : rooms * bool :=
  (delete roomId rs, bool_decide (is_Some (rs !! roomId))).

(** *** Sequences of store operations *)

Inductive op : Type :=
| OpGetCanvasState (roomId : string)
| OpSetCanvasState (roomId : string) (canvasDataURL : value)
| OpAddDrawing (rnd : string) (roomId : string) (userId : string) (path : value)
| OpUndo (roomId : string)
| OpRedo (roomId : string)
| OpClearCanvas (roomId : string)
| OpDeleteRoom (roomId : string).

(** The store after one call at clock reading [now]. *)
Definition step (now : Z) (o : op) (rs : rooms) : rooms :=
  match o with
  | OpGetCanvasState roomId => (getCanvasState now roomId rs).1
  | OpSetCanvasState roomId v => setCanvasState now roomId v rs
  | OpAddDrawing rnd roomId userId path =>
      (addDrawing now rnd roomId userId path rs).1
  | OpUndo roomId => (undo roomId rs).1
  | OpRedo roomId => (redo roomId rs).1
  | OpClearCanvas roomId => (clearCanvas now roomId rs).1
  | OpDeleteRoom roomId => (deleteRoom roomId rs).1
  end.

(** The stores the manager can be in: it starts with no room. *)
Inductive reachable : rooms → Prop :=
| reachable_new : reachable ∅
| reachable_step now o rs : reachable rs → reachable (step now o rs).

(** A sequence of calls, each with its clock reading. *)
Definition run (calls : list (Z * op)) (rs : rooms) : rooms :=
  foldl (λ rs c, step c.1 c.2 rs) rs calls.

(** The cursor bounds of the data model: an index into the history, and
    -1 exactly when the history is empty. *)
Definition cursor_ok (r : room) : Prop :=
  (-1 ≤ historyIndex r < len (history r))
  ∧ (historyIndex r = -1 ↔ len (history r) = 0).

(** A property of every room record of a store. *)
Definition all_rooms (P : room → Prop) (rs : rooms) : Prop :=
  map_Forall (λ _ r, P r) rs.

(** The snapshots held in the history, in order. *)
Definition snapshots (r : room) : list value := state <$> history r.

(** A room with nothing committed yet: absent, or just initialised. *)
Definition empty_room (roomId : string) (rs : rooms) : Prop :=
  match rs !! roomId with
  | None => True
  | Some r => history r = [] ∧ historyIndex r = -1
  end.

(** The current snapshot is the one of the last entry of the history, on
    which the cursor is (null and -1 when the history is empty). *)
Definition in_sync (r : room) : Prop :=
  historyIndex r = len (history r) - 1
  ∧ canvasState r = default Null (state <$> last (history r)).

(** [getRoomStats(roomId)]: [None] stands for [null]. *)
Record stats : Type := Stats {
  drawingCount : Z;
  historySize : Z;
  stats_historyIndex : Z;
  hasCanvasState : bool;
  stats_createdAt : Z
}.

Definition getRoomStats (roomId : string) (rs : rooms) : option stats :=
  match rs !! roomId with
  | None => None
  | Some r =>
      Some (Stats (len (drawings r)) (len (history r)) (historyIndex r)
                  (match canvasState r with Null => false | _ => true end)
                  (createdAt r))
  end.

(** [cleanup(maxAge)]: one turn of the loop over [this.rooms.entries()],
    on the store and the counter [cleaned]. *)
Definition cleanup_step (now maxAge : Z) (acc : rooms * Z) (e : string * room)
  : rooms * Z :=
  if decide (now - createdAt e.2 > maxAge ∧ len (drawings e.2) = 0)
  then ((deleteRoom e.1 acc.1).1, acc.2 + 1)
  else acc.

(** The loop visits every entry once; the model visits them in the order
    of the keys, the result not depending on the order. *)
Definition cleanup (now maxAge : Z) (rs : rooms) : rooms * Z :=
  foldl (cleanup_step now maxAge) (rs, 0) (map_to_list rs).

(** The number of [clearCanvas] calls in a sequence. *)
Definition is_clear (o : op) : bool :=
  match o with
  | OpClearCanvas _ => true
  | _ => false
  end.

Definition clears (calls : list (Z * op)) : Z :=
  foldr (λ c n, if is_clear c.2 then n + 1 else n) 0 calls.

End DrawingStateManager.

(** ** rooms.js: the room registry *)
Module RoomManager.

(** The user object built by the server on connection. *)
Record user : Type := User {
  id : string;
  username : string;
  color : string;
  socketId : string
}.

(** A room: [{id, users, createdAt}], [users] a Map from user id to user. *)
Record room : Type := Room {
  room_id : string;
  users : gmap string user;
  createdAt : Z
}.

(** [this.rooms]. *)
Abbreviation rooms := (gmap string room).

Definition set_users (u : gmap string user) (r : room) : room :=
  Room (room_id r) u (createdAt r).

(** [createRoom(roomId)]; [now] is the reading of [Date.now()]. *)
Definition createRoom (now : Z) (roomId : string) (rs : rooms) : rooms * room :=
  match rs !! roomId with
  | Some r => (rs, r)
  | None =>
      let r := Room roomId ∅ now in (<[roomId := r]> rs, r)
  end.

(** [getRoom(roomId)]. *)
Definition getRoom (now : Z) (roomId : string) (rs : rooms) : rooms * room :=
  match rs !! roomId with
  | None => createRoom now roomId rs
  | Some r => (rs, r)
  end.

(** [addUser(roomId, user)]. *)
Definition addUser (now : Z) (roomId : string) (u : user) (rs : rooms)
  : rooms * bool :=
  let '(rs, r) := getRoom now roomId rs in
  (<[roomId := set_users (<[id u := u]> (users r)) r]> rs, true).

(** [removeUser(roomId, userId)].  The stored users are objects, so the
    test [if (user)] is the test that the Map has the key. *)
Definition removeUser (roomId userId : string) (rs : rooms) : rooms * bool :=
  match rs !! roomId with
  | None => (rs, false)
  | Some r =>
      match users r !! userId with
      | Some u =>
          (<[roomId := set_users (delete userId (users r)) r]> rs, true)
      | None => (rs, false)
      end
  end.

(** [getUsers(roomId)]: the values of the Map.  The model keeps no
    insertion order, so the list is in the order of the keys. *)
Definition getUsers (roomId : string) (rs : rooms) : list user :=
  match rs !! roomId with
  | None => []
  | Some r => (map_to_list (users r)).*2
  end.

(** [getUserCount(roomId)]. *)
Definition getUserCount (roomId : string) (rs : rooms) : nat :=
  match rs !! roomId with
  | None => 0%nat
  | Some r => size (users r)
  end.

(** [hasUser(roomId, userId)]. *)
Definition hasUser (roomId userId : string) (rs : rooms) : bool :=
  match rs !! roomId with
  | None => false
  | Some r => bool_decide (is_Some (users r !! userId))
  end.

(** [deleteRoom(roomId)]. *)
Definition deleteRoom (roomId : string) (rs : rooms) : rooms * bool :=
  (delete roomId rs, bool_decide (is_Some (rs !! roomId))).

(** [cleanupEmptyRooms(maxAge)]: one turn of the loop over
    [this.rooms.entries()], on the registry and the counter [cleaned]. *)
Definition cleanupEmptyRooms_step (now maxAge : Z) (acc : rooms * Z)
    (e : string * room) : rooms * Z :=
  if decide (size (users e.2) = 0%nat ∧ now - createdAt e.2 > maxAge)
  then ((deleteRoom e.1 acc.1).1, acc.2 + 1)
  else acc.

Definition cleanupEmptyRooms (now maxAge : Z) (rs : rooms) : rooms * Z :=
  foldl (cleanupEmptyRooms_step now maxAge) (rs, 0) (map_to_list rs).

End RoomManager.

(** ** server.js: the event router *)
Module Server.

Import Js.

(** One outbound event, with the sockets it is delivered to. *)
Record emission : Type := Emit {
  recipients : gset string;
  event : string;
  payload : value
}.

(** The state the handlers share: the two managers, the colour counter,
    and Socket.io's record of which sockets [socket.join] has put in which
    room.  The room Socket.io keeps for every socket under the socket's own
    id is left out: no handler emits to it. *)
Record state : Type := State {
  roomManager : RoomManager.rooms;
  drawingStateManager : DrawingStateManager.rooms;
  colorIndex : nat;
  adapter : gmap string (gset string)
}.

(** What a connection's handlers close over: [socket.id] (which is also
    [userId]) and the generated [username]. *)
Record connection : Type := Connection {
  socket : string;
  username : string
}.

Definition userId (c : connection) : string := socket c.

(** [const roomId = 'default']. *)
Definition roomId : string := "default".

Definition USER_COLORS : list string :=
  ["#FF6B6B"; "#4ECDC4"; "#45B7D1"; "#FFA07A"; "#98D8C8";
   "#F7DC6F"; "#BB8FCE"; "#85C1E2"; "#F8B739"; "#52B788"].

(** The sockets joined to a room. *)
Definition members (room : string) (s : state) : gset string :=
  default ∅ (adapter s !! room).

(** A handler run: the new state, the events emitted, and [Some] result
    or [None] when a TypeError was raised on the way. *)
Definition handler (A : Type) : Type := state → state * list emission * option A.

Definition ret {A : Type} (a : A) : handler A := λ s, (s, [], Some a).

Definition bind {A B : Type} (m : handler A) (k : A → handler B) : handler B :=
  λ s,
    let '(s1, out1, r) := m s in
    match r with
    | None => (s1, out1, None)
    | Some a => let '(s2, out2, r2) := k a s1 in (s2, out1 ++ out2, r2)
    end.

Notation "'do' x <- m ; k" := (bind m (λ x, k))
  (at level 10, x name, m at level 100, k at level 200).
Notation "m >> k" := (bind m (λ _, k))
  (at level 100, k at level 200, right associativity).

(** [data.k]. *)
Definition prop (k : string) (data : value) : handler value :=
  λ s, (s, [], get k data).

(** [socket.emit(ev, payload)]: to the sender only. *)
Definition socket_emit (c : connection) (ev : string) (p : value) : handler unit :=
  λ s, (s, [Emit {[socket c]} ev p], Some ()).

(** [socket.to(room).emit(ev, payload)]: to the room except the sender. *)
Definition socket_to_emit (c : connection) (room ev : string) (p : value)
  : handler unit :=
  λ s, (s, [Emit (members room s ∖ {[socket c]}) ev p], Some ()).

(** [io.to(room).emit(ev, payload)]: to the whole room. *)
Definition io_to_emit (room ev : string) (p : value) : handler unit :=
  λ s, (s, [Emit (members room s) ev p], Some ()).

(** Calls into the two managers. *)
Definition with_drawingState {A : Type}
    (f : DrawingStateManager.rooms → DrawingStateManager.rooms * A) : handler A :=
  λ s, let '(d, a) := f (drawingStateManager s) in
       (State (roomManager s) d (colorIndex s) (adapter s), [], Some a).

Definition with_roomManager {A : Type}
    (f : RoomManager.rooms → RoomManager.rooms * A) : handler A :=
  λ s, let '(m, a) := f (roomManager s) in
       (State m (drawingStateManager s) (colorIndex s) (adapter s), [], Some a).

Definition user_object (u : RoomManager.user) : value :=
  Obj [("id", Str (RoomManager.id u));
       ("username", Str (RoomManager.username u));
       ("color", Str (RoomManager.color u));
       ("socketId", Str (RoomManager.socketId u))].

(** [io.on('connection', ...)] up to the registration of the handlers. *)
Definition on_connection (now : Z) (c : connection) : handler unit :=
  λ s,
    let userColor :=
      default "" (USER_COLORS !! (colorIndex s `mod` length USER_COLORS)%nat) in
    let user := RoomManager.User (userId c) (username c) userColor (socket c) in
    let s := State (RoomManager.addUser now roomId user (roomManager s)).1
                   (drawingStateManager s) (S (colorIndex s))
                   (<[roomId := {[socket c]} ∪ members roomId s]> (adapter s)) in
    (do canvasState <-
        with_drawingState (DrawingStateManager.getCanvasState now roomId);
     socket_emit c "init"
       (Obj [("userId", Str (userId c)); ("username", Str (username c));
             ("color", Str userColor); ("canvasState", canvasState)]) >>
     do users <- with_roomManager (λ m, (m, RoomManager.getUsers roomId m));
     socket_emit c "users" (Arr (user_object <$> users)) >>
     socket_to_emit c roomId "user-joined" (user_object user)) s.

(** [socket.on('draw-start', ...)]. *)
Definition on_draw_start (now : Z) (c : connection) (data : value) : handler unit :=
  do point <- prop "point" data;
  let event := Obj [("userId", Str (userId c)); ("point", point);
                    ("timestamp", Num now)] in
  socket_to_emit c roomId "draw-start" event.

(** [socket.on('draw-move', ...)]. *)
Definition on_draw_move (now : Z) (c : connection) (data : value) : handler unit :=
  do points <- prop "points" data;
  let event := Obj [("userId", Str (userId c)); ("points", points);
                    ("timestamp", Num now)] in
  socket_to_emit c roomId "draw-move" event.

(** [socket.on('draw-end', ...)].  The handler reads the clock for the
    event and again for the log entry; [now] stands for both readings. *)
Definition on_draw_end (now : Z) (rnd : string) (c : connection) (data : value)
  : handler unit :=
  do path <- prop "path" data;
  let event := Obj [("userId", Str (userId c)); ("path", path);
                    ("timestamp", Num now)] in
  (* Add to drawing history *)
  do path' <- prop "path" data;
  with_drawingState
    (DrawingStateManager.addDrawing now rnd roomId (userId c) path') >>
  socket_to_emit c roomId "draw-end" event.

(** [socket.on('cursor-move', ...)]. *)
Definition on_cursor_move (c : connection) (data : value) : handler unit :=
  do x <- prop "x" data;
  do y <- prop "y" data;
  socket_to_emit c roomId "cursor-move"
    (Obj [("userId", Str (userId c)); ("x", x); ("y", y)]).

(** The shared shape of [socket.on('undo', ...)] and
    [socket.on('redo', ...)], which differ in the event name only. *)
Definition on_undo_redo (name : string) (now : Z) (c : connection) (data : value)
  : handler unit :=
  (* Update canvas state *)
  do test <- prop "canvasState" data;
  (if truthy test then
     do canvasState <- prop "canvasState" data;
     with_drawingState
       (λ d, (DrawingStateManager.setCanvasState now roomId canvasState d, ()))
   else ret ()) >>
  (* Broadcast to all users *)
  do canvasState <- prop "canvasState" data;
  io_to_emit roomId name
    (Obj [("userId", Str (userId c)); ("canvasState", canvasState)]).

Definition on_undo := on_undo_redo "undo".
Definition on_redo := on_undo_redo "redo".

(** [socket.on('clear-canvas', ...)]. *)
Definition on_clear_canvas (now : Z) (c : connection) : handler unit :=
  with_drawingState (DrawingStateManager.clearCanvas now roomId) >>
  io_to_emit roomId "clear-canvas" Undefined.

(** [socket.on('ping', ...)]. *)
Definition on_ping (c : connection) : handler unit :=
  socket_emit c "pong" Undefined.

(** [socket.on('disconnect', ...)]: Socket.io has taken the socket out of
    its rooms by the time the handler runs. *)
Definition on_disconnect (c : connection) : handler unit :=
  λ s,
    let s := State (roomManager s) (drawingStateManager s) (colorIndex s)
                   (<[roomId := members roomId s ∖ {[socket c]}]> (adapter s)) in
    ((* Remove user from room *)
     with_roomManager (RoomManager.removeUser roomId (userId c)) >>
     (* Notify other users *)
     socket_to_emit c roomId "user-left" (Str (userId c)) >>
     (* Update users list for remaining users *)
     do remainingUsers <-
        with_roomManager (λ m, (m, RoomManager.getUsers roomId m));
     io_to_emit roomId "users" (Arr (user_object <$> remainingUsers))) s.

(** The events a client sends, with their payload. *)
Inductive inbound : Type :=
| DrawStart (data : value)
| DrawMove (data : value)
| DrawEnd (data : value)
| CursorMove (data : value)
| UndoEvent (data : value)
| RedoEvent (data : value)
| ClearCanvas
| Ping.

Definition event_name (ev : inbound) : string :=
  match ev with
  | DrawStart _ => "draw-start"
  | DrawMove _ => "draw-move"
  | DrawEnd _ => "draw-end"
  | CursorMove _ => "cursor-move"
  | UndoEvent _ => "undo"
  | RedoEvent _ => "redo"
  | ClearCanvas => "clear-canvas"
  | Ping => "ping"
  end.

(** The dispatch of an inbound event to the handler registered for it. *)
Definition handle (now : Z) (rnd : string) (c : connection) (ev : inbound)
  : handler unit :=
  match ev with
  | DrawStart data => on_draw_start now c data
  | DrawMove data => on_draw_move now c data
  | DrawEnd data => on_draw_end now rnd c data
  | CursorMove data => on_cursor_move c data
  | UndoEvent data => on_undo now c data
  | RedoEvent data => on_redo now c data
  | ClearCanvas => on_clear_canvas now c
  | Ping => on_ping c
  end.

(** The server as started: no room, no connection. *)
Definition initial : state := State ∅ ∅ 0 ∅.

(** A payload that is [undefined] or [null], on which every property read
    raises. *)
Definition nullish (v : value) : bool :=
  match v with
  | Undefined | Null => true
  | _ => false
  end.

Definition nullish_payload (ev : inbound) : bool :=
  match ev with
  | DrawStart data | DrawMove data | DrawEnd data | CursorMove data
  | UndoEvent data | RedoEvent data => nullish data
  | ClearCanvas | Ping => false
  end.

(** What happens at the server: a client connects, sends an event, or
    disconnects. *)
Inductive transition : Type :=
| Connects (c : connection)
| Sends (c : connection) (ev : inbound)
| Disconnects (c : connection).

(** The state after a transition; what a handler did before it raised
    stays done. *)
Definition step (now : Z) (rnd : string) (t : transition) (s : state) : state :=
  match t with
  | Connects c => (on_connection now c s).1.1
  | Sends c ev => (handle now rnd c ev s).1.1
  | Disconnects c => (on_disconnect c s).1.1
  end.

(** The states the server can be in. *)
Inductive reachable : state → Prop :=
| reachable_initial : reachable initial
| reachable_step now rnd t s : reachable s → reachable (step now rnd t s).

(** What an event makes the current snapshot of the room, if anything: an
    undo or redo with a truthy [canvasState] commits it, a clear-canvas
    resets it to null. *)
Definition sets_snapshot (ev : inbound) (v : value) : Prop :=
  match ev with
  | UndoEvent data | RedoEvent data =>
      get "canvasState" data = Some v ∧ truthy v = true
  | ClearCanvas => v = Null
  | DrawStart _ | DrawMove _ | DrawEnd _ | CursorMove _ | Ping => False
  end.



End Server.

(** ** client/canvas.js: the local undo history of the canvas *)
Module CanvasManager.

Import Js.

Section canvas.

(** The pixels of the drawing surface, as [getImageData] copies them and
    [putImageData] restores them; [white] is the surface after the white
    fill. *)
Context {image : Type}.
Variable white : image.

(** The part of a [CanvasManager] that its history methods use. *)
Record canvas : Type := Canvas {
  pixels : image;
  history : list image;
  historyStep : Z
}.

Definition len (l : list image) : Z := Z.of_nat (length l).

(** [saveState()]. *)
Definition saveState (c : canvas) : canvas :=
  (* Remove any redo history *)
  let h := slice (history c) 0 (historyStep c + 1) in
  (* Save current canvas state *)
  let h := h ++ [pixels c] in
  let step := historyStep c + 1 in
  (* Limit history to 50 steps to prevent memory issues *)
  if decide (len h > 50)
  then Canvas (pixels c) (tail h) (step - 1)
  else Canvas (pixels c) h step.

(** The constructor and [initCanvas]: an empty history, a white surface,
    and a first [saveState]. *)
Definition initCanvas : canvas := saveState (Canvas white [] (-1)).

(** [undo()]: [putImageData] raises on [undefined], after the step has
    moved. *)
Definition undo (c : canvas) : canvas * outcome bool :=
  if decide (historyStep c > 0) then
    let step := historyStep c - 1 in
    match index (history c) step with
    | Some imageData => (Canvas imageData (history c) step, Returned true)
    | None => (Canvas (pixels c) (history c) step, Threw)
    end
  else (c, Returned false).

(** [redo()]. *)
Definition redo (c : canvas) : canvas * outcome bool :=
  if decide (historyStep c < len (history c) - 1) then
    let step := historyStep c + 1 in
    match index (history c) step with
    | Some imageData => (Canvas imageData (history c) step, Returned true)
    | None => (Canvas (pixels c) (history c) step, Threw)
    end
  else (c, Returned false).

(** [clear()]. *)
Definition clear (c : canvas) : canvas :=
  saveState (Canvas white (history c) (historyStep c)).

(** [loadState(imageData)]: [None] stands for a falsy argument. *)
Definition loadState (imageData : option image) (c : canvas) : canvas :=
  match imageData with
  | Some img => saveState (Canvas img (history c) (historyStep c))
  | None => c
  end.

(** Rendering a path changes the pixels and nothing else. *)
Definition paint (p : image) (c : canvas) : canvas :=
  Canvas p (history c) (historyStep c).

(** What can be done to a canvas. *)
Inductive action : Type :=
| Paint (p : image)
| SaveState
| UndoStep
| RedoStep
| Clear
| LoadState (imageData : option image).

Definition act (a : action) (c : canvas) : canvas :=
  match a with
  | Paint p => paint p c
  | SaveState => saveState c
  | UndoStep => (undo c).1
  | RedoStep => (redo c).1
  | Clear => clear c
  | LoadState imageData => loadState imageData c
  end.

(** The cursor is on an entry of a history of at most 50 entries. *)
Definition bounds (c : canvas) : Prop :=
  0 ≤ historyStep c < len (history c) ∧ len (history c) ≤ 50.

(** The surface shows the history entry at the cursor. *)
Definition shows (c : canvas) : Prop :=
  index (history c) (historyStep c) = Some (pixels c).

(** The canvases a [CanvasManager] can hold. *)
Inductive reachable : canvas → Prop :=
| reachable_init : reachable initCanvas
| reachable_act a c : reachable c → reachable (act a c).

End canvas.

End CanvasManager.

(** ** Concrete call sequences used below *)
Module Scenarios.

Import Js DrawingStateManager.

(** [n] commits of distinct snapshots to one room. *)
Definition commits (n : nat) (roomId : string) : list (Z * op) :=
  (λ i : nat, (Z.of_nat i, OpSetCanvasState roomId (Num (Z.of_nat i))))
    <$> seq 1 n.

(** A full history, then a clear. *)
Definition fill_then_clear : list (Z * op) :=
  commits 100 "default" ++ [(101, OpClearCanvas "default")].

(** Two commits and an undo: the cursor is on the first of two entries. *)
Definition commit_commit_undo : list (Z * op) :=
  [(1, OpSetCanvasState "default" (Str "A"));
   (2, OpSetCanvasState "default" (Str "B"));
   (3, OpUndo "default")].

Definition after_undo : rooms := run commit_commit_undo ∅.

Definition after_undo_room : room :=
  Room (Str "A") [] [Entry (Str "A") 1 None; Entry (Str "B") 2 None] 0 1.

(** ... and then a clear. *)
Definition undo_then_clear : list (Z * op) :=
  commit_commit_undo ++ [(4, OpClearCanvas "default")].

(** [n] finished strokes logged for one room. *)
Definition strokes (n : nat) (roomId : string) : list (Z * op) :=
  (λ i : nat, (Z.of_nat i, OpAddDrawing "0.5" roomId "alice" (Arr [])))
    <$> seq 1 n.

(** A room with a full history, the cursor on its last entry. *)
Definition full_history : rooms := run (commits 100 "default") ∅.
Definition full_history_room : room := the_room 0 "default" full_history.

(** Two commits, the cursor on the second. *)
Definition two_commits : rooms :=
  run [(1, OpSetCanvasState "default" (Str "A"));
       (2, OpSetCanvasState "default" (Str "B"))] ∅.

Definition two_commits_room : room :=
  Room (Str "B") [] [Entry (Str "A") 1 None; Entry (Str "B") 2 None] 1 1.

(** A room with a full drawing log. *)
Definition full_log : rooms := run (strokes 200 "default") ∅.

(** Two connected clients. *)
Definition alice : Server.connection := Server.Connection "alice" "HappyPanda1".
Definition bob : Server.connection := Server.Connection "bob" "BoldFox2".

Definition two_users : Server.state :=
  let s1 := (Server.on_connection 1 alice Server.initial).1.1 in
  (Server.on_connection 2 bob s1).1.1.

(** ... one of whom has sent an undo with a snapshot. *)
Definition after_undo_event : Server.state :=
  Server.step 3 "0.5"
    (Server.Sends alice
       (Server.UndoEvent (Js.Obj [("canvasState", Js.Str "data:image/png")])))
    two_users.

(** A registry with one room and one user in it. *)
Definition one_user : RoomManager.rooms :=
  (RoomManager.addUser 1 "default"
     (RoomManager.User "alice" "HappyPanda1" "#FF6B6B" "alice") ∅).1.

End Scenarios.

(** * Properties of the history store *)
Module DrawingStateFacts.

Import Js DrawingStateManager Scenarios.

Lemma len_app {A : Type} (l : list A) (x : A) : len (l ++ [x]) = len l + 1.
Proof. unfold len. rewrite length_app. simpl. lia. Qed.

(** Each keyed method is its body applied to the room record, which
    [initRoom] creates when it is absent. *)
Lemma initRoom_insert now roomId rs (f : room → room) :
  <[roomId := f (initRoom now roomId rs).2]> (initRoom now roomId rs).1
  = <[roomId := f (the_room now roomId rs)]> rs.
Proof.
  unfold initRoom, the_room. destruct (rs !! roomId); simpl; [done|].
  by rewrite insert_insert_eq.
Qed.

Lemma setCanvasState_eq now roomId v rs :
  setCanvasState now roomId v rs
  = <[roomId := setCanvasState_room now v (the_room now roomId rs)]> rs.
Proof.
  unfold setCanvasState.
  rewrite <- (initRoom_insert now roomId rs (setCanvasState_room now v)).
  by destruct (initRoom now roomId rs).
Qed.

Lemma clearCanvas_eq now roomId rs :
  clearCanvas now roomId rs
  = (<[roomId := clearCanvas_room now (the_room now roomId rs)]> rs, true).
Proof.
  unfold clearCanvas.
  rewrite <- (initRoom_insert now roomId rs (clearCanvas_room now)).
  by destruct (initRoom now roomId rs).
Qed.

Lemma addDrawing_eq now rnd roomId userId path rs :
  addDrawing now rnd roomId userId path rs
  = (<[roomId := addDrawing_room now rnd userId path (the_room now roomId rs)]> rs,
     true).
Proof.
  unfold addDrawing.
  rewrite <- (initRoom_insert now roomId rs (addDrawing_room now rnd userId path)).
  by destruct (initRoom now roomId rs).
Qed.

Lemma undo_eq roomId rs r :
  rs !! roomId = Some r →
  undo roomId rs = (<[roomId := (undo_room r).1]> rs, (undo_room r).2).
Proof. intros E. unfold undo. rewrite E. by destruct (undo_room r). Qed.

Lemma redo_eq roomId rs r :
  rs !! roomId = Some r →
  redo roomId rs = (<[roomId := (redo_room r).1]> rs, (redo_room r).2).
Proof. intros E. unfold redo. rewrite E. by destruct (redo_room r). Qed.

Lemma undo_fst roomId rs r :
  rs !! roomId = Some r → (undo roomId rs).1 = <[roomId := (undo_room r).1]> rs.
Proof. intros E. by rewrite (undo_eq _ _ _ E). Qed.

Lemma undo_snd roomId rs r :
  rs !! roomId = Some r → (undo roomId rs).2 = (undo_room r).2.
Proof. intros E. by rewrite (undo_eq _ _ _ E). Qed.

Lemma redo_fst roomId rs r :
  rs !! roomId = Some r → (redo roomId rs).1 = <[roomId := (redo_room r).1]> rs.
Proof. intros E. by rewrite (redo_eq _ _ _ E). Qed.

Lemma redo_snd roomId rs r :
  rs !! roomId = Some r → (redo roomId rs).2 = (redo_room r).2.
Proof. intros E. by rewrite (redo_eq _ _ _ E). Qed.

Lemma the_room_insert now roomId r rs :
  the_room now roomId (<[roomId := r]> rs) = r.
Proof. unfold the_room. by rewrite lookup_insert_eq. Qed.

(** ** Lists as JavaScript arrays *)

Lemma len_tail {A : Type} (l : list A) : len l > 0 → len (tail l) = len l - 1.
Proof. destruct l; unfold len; simpl; lia. Qed.

Lemma slice_prefix {A : Type} (l : list A) (n : Z) :
  0 ≤ n ≤ len l → slice l 0 n = take (Z.to_nat n) l.
Proof.
  intros Hn. unfold slice, clamp, len in *.
  repeat case_decide; try lia.
  rewrite Z.min_l, Z.min_l by lia. rewrite Z.sub_0_r. reflexivity.
Qed.

Lemma len_slice_prefix {A : Type} (l : list A) (n : Z) :
  0 ≤ n ≤ len l → len (slice l 0 n) = n.
Proof.
  intros Hn. rewrite slice_prefix by done. unfold len in *.
  rewrite length_take. lia.
Qed.

Lemma len_slice_le {A : Type} (l : list A) (i j : Z) : len (slice l i j) ≤ len l.
Proof.
  unfold slice, len. rewrite length_take, length_drop. lia.
Qed.

Lemma index_Some_lt {A : Type} (l : list A) (i : Z) :
  0 ≤ i < len l → is_Some (index l i).
Proof.
  intros Hi. unfold index, len in *. case_decide; [lia|].
  apply lookup_lt_is_Some. lia.
Qed.

(** ** The reachable stores and their invariants *)

Lemma reachable_run calls rs : reachable rs → reachable (run calls rs).
Proof.
  revert rs. induction calls as [|[now o] calls IH]; intros rs Hrs; [done|].
  apply IH. by constructor.
Qed.

(** A property of room records that every method body preserves holds of
    every room of every reachable store. *)
Section invariant.
Variable P : room → Prop.
Hypothesis P_new : ∀ now, P (new_room now).
Hypothesis P_setCanvasState :
  ∀ now v r, P r → P (setCanvasState_room now v r).
Hypothesis P_addDrawing :
  ∀ now rnd u p r, P r → P (addDrawing_room now rnd u p r).
Hypothesis P_undo : ∀ r, P r → P (undo_room r).1.
Hypothesis P_redo : ∀ r, P r → P (redo_room r).1.
Hypothesis P_clearCanvas : ∀ now r, P r → P (clearCanvas_room now r).

Lemma inv_the_room now roomId rs : all_rooms P rs → P (the_room now roomId rs).
Proof.
  intros Hrs. unfold the_room.
  destruct (rs !! roomId) as [r|] eqn:E; simpl; [|apply P_new].
  exact (Hrs _ _ E).
Qed.

Lemma inv_step now o rs : all_rooms P rs → all_rooms P (step now o rs).
Proof.
  intros Hrs. destruct o as [k|k v|rnd k u p|k|k|k|k]; unfold step.
  - unfold getCanvasState, initRoom.
    destruct (rs !! k) eqn:E; simpl; [done|].
    apply map_Forall_insert_2; [apply P_new|done].
  - rewrite setCanvasState_eq.
    apply map_Forall_insert_2; [|done].
    apply P_setCanvasState, inv_the_room, Hrs.
  - rewrite addDrawing_eq. cbn [fst].
    apply map_Forall_insert_2; [|done].
    apply P_addDrawing, inv_the_room, Hrs.
  - destruct (rs !! k) as [r|] eqn:E.
    + rewrite (undo_fst _ _ _ E).
      apply map_Forall_insert_2; [|done]. apply P_undo. exact (Hrs _ _ E).
    + unfold undo. by rewrite E.
  - destruct (rs !! k) as [r|] eqn:E.
    + rewrite (redo_fst _ _ _ E).
      apply map_Forall_insert_2; [|done]. apply P_redo. exact (Hrs _ _ E).
    + unfold redo. by rewrite E.
  - rewrite clearCanvas_eq. cbn [fst].
    apply map_Forall_insert_2; [|done].
    apply P_clearCanvas, inv_the_room, Hrs.
  - unfold deleteRoom. cbn [fst]. by apply map_Forall_delete.
Qed.

Lemma reachable_invariant rs roomId r :
  reachable rs → rs !! roomId = Some r → P r.
Proof.
  intros Hreach. revert roomId r. change (all_rooms P rs).
  induction Hreach as [|now o rs _ IH]; [apply map_Forall_empty|].
  by apply inv_step.
Qed.
End invariant.

(** ** C6: cursor bounds *)

Lemma cursor_ok_new now : cursor_ok (new_room now).
Proof. unfold cursor_ok, new_room, len. simpl. lia. Qed.

(** After a commit the cursor is on the last entry. *)
Lemma setCanvasState_room_cursor now v r :
  cursor_ok r →
  historyIndex (setCanvasState_room now v r)
  = len (history (setCanvasState_room now v r)) - 1
  ∧ len (history (setCanvasState_room now v r)) > 0.
Proof.
  intros [Hb Hz]. unfold setCanvasState_room.
  destruct (decide (historyIndex r < len (history r) - 1)) as [Hlt|Hge];
    cbn [history historyIndex set_history set_historyIndex set_canvasState].
  - rewrite len_app, len_slice_prefix by lia.
    case_decide;
      cbn [history historyIndex set_history set_historyIndex set_canvasState].
    + rewrite len_tail; rewrite len_app, len_slice_prefix; lia.
    + rewrite len_app, len_slice_prefix; lia.
  - rewrite len_app.
    case_decide;
      cbn [history historyIndex set_history set_historyIndex set_canvasState].
    + rewrite len_tail; rewrite len_app; unfold maxHistorySize in *; lia.
    + rewrite len_app. lia.
Qed.

Lemma cursor_ok_setCanvasState now v r :
  cursor_ok r → cursor_ok (setCanvasState_room now v r).
Proof.
  intros Hr. destruct (setCanvasState_room_cursor now v r Hr) as [Hi Hl].
  unfold cursor_ok. lia.
Qed.

Lemma cursor_ok_addDrawing now rnd u p r :
  cursor_ok r → cursor_ok (addDrawing_room now rnd u p r).
Proof. unfold addDrawing_room. by case_decide. Qed.

Lemma cursor_ok_undo r : cursor_ok r → cursor_ok (undo_room r).1.
Proof.
  intros [Hb Hz]. unfold undo_room. case_decide; [|done].
  cbn [history historyIndex set_historyIndex].
  destruct (index (history r) (historyIndex r - 1)); unfold cursor_ok;
    cbn [fst history historyIndex set_historyIndex set_canvasState]; lia.
Qed.

Lemma cursor_ok_redo r : cursor_ok r → cursor_ok (redo_room r).1.
Proof.
  intros [Hb Hz]. unfold redo_room. case_decide; [|done].
  cbn [history historyIndex set_historyIndex].
  destruct (index (history r) (historyIndex r + 1)); unfold cursor_ok;
    cbn [fst history historyIndex set_historyIndex set_canvasState]; lia.
Qed.

Lemma cursor_ok_clearCanvas now r :
  cursor_ok r → cursor_ok (clearCanvas_room now r).
Proof.
  intros [Hb Hz]. unfold clearCanvas_room, cursor_ok.
  cbn [history historyIndex set_history set_historyIndex set_canvasState
       set_drawings].
  rewrite len_app. lia.
Qed.

Lemma reachable_cursor_ok rs roomId r :
  reachable rs → rs !! roomId = Some r → cursor_ok r.
Proof.
  apply reachable_invariant;
    auto using cursor_ok_new, cursor_ok_setCanvasState, cursor_ok_addDrawing,
               cursor_ok_undo, cursor_ok_redo, cursor_ok_clearCanvas.
Qed.

(** C6. In every store reachable by the history-store operations, every
    room has [-1 <= historyIndex < history.length], with
    [historyIndex = -1] exactly when the history is empty; so the cursor is
    a valid index whenever the history is not empty. *)
Theorem reachable_cursor_bounds (rs : rooms) (roomId : string) (r : room) :
  reachable rs → rs !! roomId = Some r →
  (-1 ≤ historyIndex r < len (history r))
  ∧ (historyIndex r = -1 ↔ len (history r) = 0)
  ∧ (len (history r) ≠ 0 → 0 ≤ historyIndex r < len (history r)).
Proof.
  intros Hreach Hr.
  destruct (reachable_cursor_ok rs roomId r Hreach Hr) as [Hb Hz].
  split; [exact Hb|]. split; [exact Hz|]. lia.
Qed.

Lemma after_undo_lookup : after_undo !! "default" = Some after_undo_room.
Proof. vm_compute. reflexivity. Qed.

Lemma reachable_cursor_bounds_witness :
  (-1 ≤ historyIndex after_undo_room < len (history after_undo_room))
  ∧ (historyIndex after_undo_room = -1 ↔ len (history after_undo_room) = 0)
  ∧ (len (history after_undo_room) ≠ 0 →
     0 ≤ historyIndex after_undo_room < len (history after_undo_room)).
Proof.
  apply (reachable_cursor_bounds after_undo "default" after_undo_room).
  - apply reachable_run, reachable_new.
  - exact after_undo_lookup.
Defined.

(** ** C7: the contract of undo and redo *)

Lemma undo_room_moves r :
  cursor_ok r → historyIndex r > 0 →
  ∃ e, index (history r) (historyIndex r - 1) = Some e
       ∧ undo_room r
         = (Room (state e) (drawings r) (history r) (historyIndex r - 1)
                 (createdAt r),
            Returned (state e)).
Proof.
  intros [Hb _] Hpos.
  destruct (index_Some_lt (history r) (historyIndex r - 1)) as [e He]; [lia|].
  exists e. split; [done|]. unfold undo_room.
  case_decide; [|lia]. cbn [history historyIndex set_historyIndex].
  by rewrite He.
Qed.

Lemma undo_room_stays r :
  historyIndex r ≤ 0 → undo_room r = (r, Returned Null).
Proof. intros Hle. unfold undo_room. case_decide; [lia|done]. Qed.

Lemma redo_room_moves r :
  cursor_ok r → historyIndex r < len (history r) - 1 →
  ∃ e, index (history r) (historyIndex r + 1) = Some e
       ∧ redo_room r
         = (Room (state e) (drawings r) (history r) (historyIndex r + 1)
                 (createdAt r),
            Returned (state e)).
Proof.
  intros [Hb _] Hlt.
  destruct (index_Some_lt (history r) (historyIndex r + 1)) as [e He]; [lia|].
  exists e. split; [done|]. unfold redo_room.
  case_decide; [|lia]. cbn [history historyIndex set_historyIndex].
  by rewrite He.
Qed.

Lemma redo_room_stays r :
  len (history r) - 1 ≤ historyIndex r → redo_room r = (r, Returned Null).
Proof. intros Hge. unfold redo_room. case_decide; [lia|done]. Qed.

(** C7. On a room within the cursor bounds, [undo] with the cursor above 0
    moves it down by one, makes the entry now at the cursor the current
    snapshot and returns it; with the cursor at 0, with an empty history
    or on an unknown room it returns null and changes nothing.  [redo] is
    the mirror image: it moves up while the cursor is below
    [history.length - 1], and returns null and changes nothing
    otherwise. *)
Theorem undo_redo_contract (rs : rooms) (roomId : string) :
  (∀ r, rs !! roomId = Some r → cursor_ok r) →
  match rs !! roomId with
  | None =>
      undo roomId rs = (rs, Returned Null)
      ∧ redo roomId rs = (rs, Returned Null)
  | Some r =>
      (historyIndex r > 0 →
       ∃ e, index (history r) (historyIndex r - 1) = Some e
            ∧ undo roomId rs
              = (<[roomId := Room (state e) (drawings r) (history r)
                                  (historyIndex r - 1) (createdAt r)]> rs,
                 Returned (state e)))
      ∧ (historyIndex r ≤ 0 → undo roomId rs = (rs, Returned Null))
      ∧ (historyIndex r < len (history r) - 1 →
         ∃ e, index (history r) (historyIndex r + 1) = Some e
              ∧ redo roomId rs
                = (<[roomId := Room (state e) (drawings r) (history r)
                                    (historyIndex r + 1) (createdAt r)]> rs,
                   Returned (state e)))
      ∧ (len (history r) - 1 ≤ historyIndex r →
         redo roomId rs = (rs, Returned Null))
  end.
Proof.
  intros Hok. destruct (rs !! roomId) as [r|] eqn:E.
  - specialize (Hok r eq_refl). repeat apply conj.
    + intros Hpos. destruct (undo_room_moves r Hok Hpos) as (e & He & Hu).
      exists e. split; [done|]. by rewrite (undo_eq _ _ _ E), Hu.
    + intros Hle. rewrite (undo_eq _ _ _ E), undo_room_stays by done.
      cbn [fst snd]. by rewrite insert_id.
    + intros Hlt. destruct (redo_room_moves r Hok Hlt) as (e & He & Hu).
      exists e. split; [done|]. by rewrite (redo_eq _ _ _ E), Hu.
    + intros Hge. rewrite (redo_eq _ _ _ E), redo_room_stays by done.
      cbn [fst snd]. by rewrite insert_id.
  - unfold undo, redo. by rewrite E.
Qed.

(** The contract at the store reached by two commits and an undo: the
    cursor is at 0 of 2 entries, so [undo] stays and [redo] moves. *)
Lemma undo_redo_contract_witness :
  undo "default" after_undo = (after_undo, Returned Null)
  ∧ ∃ e, index (history after_undo_room) 1 = Some e
         ∧ redo "default" after_undo
           = (<["default" := Room (state e) [] (history after_undo_room) 1 1]>
                after_undo,
              Returned (state e)).
Proof.
  pose proof (undo_redo_contract after_undo "default") as H.
  rewrite after_undo_lookup in H.
  destruct H as (_ & Hundo & Hredo & _).
  - intros r Hr. apply (reachable_cursor_ok after_undo "default"); [|done].
    apply reachable_run, reachable_new.
  - split.
    + apply Hundo. vm_compute. discriminate.
    + apply Hredo. vm_compute. reflexivity.
Defined.

(** ** C10: undo and redo leave the history and the drawing log alone *)

Lemma undo_room_frame r :
  history (undo_room r).1 = history r
  ∧ drawings (undo_room r).1 = drawings r
  ∧ createdAt (undo_room r).1 = createdAt r.
Proof.
  unfold undo_room. case_decide; [|done].
  cbn [history historyIndex set_historyIndex].
  by destruct (index (history r) (historyIndex r - 1)).
Qed.

Lemma redo_room_frame r :
  history (redo_room r).1 = history r
  ∧ drawings (redo_room r).1 = drawings r
  ∧ createdAt (redo_room r).1 = createdAt r.
Proof.
  unfold redo_room. case_decide; [|done].
  cbn [history historyIndex set_historyIndex].
  by destruct (index (history r) (historyIndex r + 1)).
Qed.

(** What [undo] and [redo] may not touch in a room record. *)
Lemma frame_lookup (f : room → room) (roomId k : string) (rs : rooms) (r : room) :
  rs !! roomId = Some r →
  history (f r) = history r ∧ drawings (f r) = drawings r
    ∧ createdAt (f r) = createdAt r →
  history <$> (<[roomId := f r]> rs !! k) = history <$> (rs !! k)
  ∧ drawings <$> (<[roomId := f r]> rs !! k) = drawings <$> (rs !! k)
  ∧ createdAt <$> (<[roomId := f r]> rs !! k) = createdAt <$> (rs !! k)
  ∧ (k ≠ roomId → <[roomId := f r]> rs !! k = rs !! k).
Proof.
  intros E (Hh & Hd & Hc). destruct (decide (k = roomId)) as [->|Hne].
  - rewrite lookup_insert_eq, E. cbn [fmap option_fmap option_map].
    rewrite Hh, Hd, Hc. done.
  - rewrite lookup_insert_ne by done. done.
Qed.

(** C10. [undo] and [redo] leave the history array and the drawing log of
    every room as they were (and the creation time, and every other room
    altogether), whether or not the cursor moves: only [historyIndex] and
    [canvasState] of the addressed room can change. *)
Theorem undo_redo_frame (rs : rooms) (roomId k : string) :
  let after_u := (undo roomId rs).1 in
  let after_r := (redo roomId rs).1 in
  (history <$> (after_u !! k) = history <$> (rs !! k)
   ∧ drawings <$> (after_u !! k) = drawings <$> (rs !! k)
   ∧ createdAt <$> (after_u !! k) = createdAt <$> (rs !! k)
   ∧ (k ≠ roomId → after_u !! k = rs !! k))
  ∧ (history <$> (after_r !! k) = history <$> (rs !! k)
     ∧ drawings <$> (after_r !! k) = drawings <$> (rs !! k)
     ∧ createdAt <$> (after_r !! k) = createdAt <$> (rs !! k)
     ∧ (k ≠ roomId → after_r !! k = rs !! k)).
Proof.
  cbv zeta. destruct (rs !! roomId) as [r|] eqn:E.
  - rewrite (undo_fst _ _ _ E), (redo_fst _ _ _ E). split.
    + apply (frame_lookup (λ r, (undo_room r).1)); [done|apply undo_room_frame].
    + apply (frame_lookup (λ r, (redo_room r).1)); [done|apply redo_room_frame].
  - unfold undo, redo. rewrite E. cbn [fst]. done.
Qed.

(** ** C2, C3, C4: [clearCanvas] appends without pruning or capping *)

(** [setCanvasState] does keep the history within [maxHistorySize] ... *)
Lemma setCanvasState_room_capped now v r :
  len (history r) ≤ maxHistorySize →
  len (history (setCanvasState_room now v r)) ≤ maxHistorySize.
Proof.
  intros Hle. unfold setCanvasState_room.
  pose proof (len_slice_le (history r) 0 (historyIndex r + 1)) as Hs.
  assert (∀ l : list entry,
            len l ≤ maxHistorySize →
            len (if decide (len (l ++ [Entry v now None]) > maxHistorySize)
                 then tail (l ++ [Entry v now None])
                 else l ++ [Entry v now None]) ≤ maxHistorySize) as Hpush.
  { intros l Hl. case_decide as Hcap; rewrite len_app in Hcap.
    - rewrite len_tail; rewrite len_app; unfold len in *; lia.
    - rewrite len_app. lia. }
  destruct (decide (historyIndex r < len (history r) - 1));
    cbn [history historyIndex set_history set_historyIndex set_canvasState].
  - specialize (Hpush (slice (history r) 0 (historyIndex r + 1))).
    case_decide;
      cbn [history historyIndex set_history set_historyIndex set_canvasState]
      in *; apply Hpush; lia.
  - specialize (Hpush (history r)).
    case_decide;
      cbn [history historyIndex set_history set_historyIndex set_canvasState]
      in *; apply Hpush; lia.
Qed.

(** ... by dropping the oldest entry of a full history and leaving the
    cursor, moved up by the append and down by the eviction, where it
    was. *)
Lemma setCanvasState_room_evicts now v r :
  len (history r) = maxHistorySize → historyIndex r = maxHistorySize - 1 →
  history (setCanvasState_room now v r)
  = tail (history r) ++ [Entry v now None]
  ∧ historyIndex (setCanvasState_room now v r) = historyIndex r + 1 - 1.
Proof.
  intros Hlen Hidx. unfold setCanvasState_room.
  destruct (decide (historyIndex r < len (history r) - 1)); [lia|].
  cbn [history historyIndex set_history set_historyIndex set_canvasState].
  rewrite len_app. case_decide; [|lia].
  cbn [history historyIndex set_history set_historyIndex set_canvasState].
  split; [|done].
  destruct (history r); [|done]. unfold len, maxHistorySize in Hlen.
  simpl in Hlen. lia.
Qed.

(** What [clearCanvas] does do: the snapshot is null, the drawing log is
    empty, and a clear marker is the last entry of the history. *)
Lemma clearCanvas_room_effect now r :
  canvasState (clearCanvas_room now r) = Null
  ∧ drawings (clearCanvas_room now r) = []
  ∧ history (clearCanvas_room now r)
    = history r ++ [Entry Null now (Some "clear")]
  ∧ historyIndex (clearCanvas_room now r) = historyIndex r + 1.
Proof. done. Qed.

(** C2 (evaluation). After 100 commits the history is full; a
    [clearCanvas] then leaves 101 entries in it, one more than
    [maxHistorySize]. *)
Theorem clearCanvas_exceeds_maxHistorySize :
  reachable (run fill_then_clear ∅)
  ∧ ∃ r, run fill_then_clear ∅ !! "default" = Some r
         ∧ len (history r) = 101
         ∧ historyIndex r = 100.
Proof.
  split; [apply reachable_run, reachable_new|].
  vm_compute. eexists. split; [reflexivity|]. split; reflexivity.
Qed.

(** C3 (evaluation). After commit A, commit B, undo, a [clearCanvas]
    leaves [canvasState] null while the entry at the cursor is the commit
    of B, which is no clear marker. *)
Theorem clearCanvas_canvasState_not_at_cursor :
  reachable (run undo_then_clear ∅)
  ∧ ∃ r, run undo_then_clear ∅ !! "default" = Some r
         ∧ canvasState r = Null
         ∧ index (history r) (historyIndex r) = Some (Entry (Str "B") 2 None).
Proof.
  split; [apply reachable_run, reachable_new|].
  vm_compute. eexists. split; [reflexivity|]. split; reflexivity.
Qed.

(** C4 (evaluation). With the cursor on the first of the two entries A, B,
    [clearCanvas] keeps B and appends the clear marker behind it, leaving
    the cursor on B; [setCanvasState] in the same state discards B
    first. *)
Theorem clearCanvas_keeps_redo_branch :
  (∃ r, (clearCanvas 4 "default" after_undo).1 !! "default" = Some r
        ∧ snapshots r = [Str "A"; Str "B"; Null]
        ∧ historyIndex r = 1)
  ∧ (∃ r, setCanvasState 4 "default" (Str "C") after_undo !! "default" = Some r
          ∧ snapshots r = [Str "A"; Str "C"]
          ∧ historyIndex r = 1).
Proof.
  vm_compute. split; eexists; (split; [reflexivity|]); split; reflexivity.
Qed.

(** ** C1: the undo-stack prune scenario *)

(** The scenario on the room record itself. *)
Lemma scenario_room (r0 : room) (A B C : value) (t1 t2 t3 : Z) :
  history r0 = [] → historyIndex r0 = -1 →
  let r1 := setCanvasState_room t1 A r0 in
  let r2 := setCanvasState_room t2 B r1 in
  let r3 := undo_room r2 in
  let r4 := setCanvasState_room t3 C r3.1 in
  let r5 := redo_room r4 in
  r3.2 = Returned A ∧ r5.2 = Returned Null
  ∧ snapshots r5.1 = [A; C] ∧ historyIndex r5.1 = 1.
Proof.
  intros Hh Hi. destruct r0 as [c d h i t]. simpl in Hh, Hi. subst.
  vm_compute. by repeat split.
Qed.

(** C1. From an empty room, commit A, commit B, undo, commit C, redo: the
    undo returns A, the redo returns null because B was pruned by the
    commit of C, and the history ends as exactly [A; C] with the cursor
    at 1. *)
Theorem scenario_commit_undo_commit_redo
    (rs : rooms) (roomId : string) (A B C : value) (t1 t2 t3 : Z) :
  empty_room roomId rs →
  let s1 := setCanvasState t1 roomId A rs in
  let s2 := setCanvasState t2 roomId B s1 in
  let s3 := undo roomId s2 in
  let s4 := setCanvasState t3 roomId C s3.1 in
  let s5 := redo roomId s4 in
  s3.2 = Returned A
  ∧ s5.2 = Returned Null
  ∧ ∃ r, s5.1 !! roomId = Some r ∧ snapshots r = [A; C] ∧ historyIndex r = 1.
Proof.
  intros Hempty. cbv zeta.
  assert (history (the_room t1 roomId rs) = []
          ∧ historyIndex (the_room t1 roomId rs) = -1) as [Hh Hi].
  { unfold empty_room, the_room in *. by destruct (rs !! roomId). }
  pose proof (scenario_room (the_room t1 roomId rs) A B C t1 t2 t3 Hh Hi)
    as (Hu & Hr & Hs & Hc).
  rewrite (setCanvasState_eq t1), (setCanvasState_eq t2), the_room_insert.
  rewrite (undo_fst _ _ _ (lookup_insert_eq _ _ _)).
  rewrite (undo_snd _ _ _ (lookup_insert_eq _ _ _)).
  rewrite (setCanvasState_eq t3), the_room_insert.
  rewrite (redo_fst _ _ _ (lookup_insert_eq _ _ _)).
  rewrite (redo_snd _ _ _ (lookup_insert_eq _ _ _)).
  split; [exact Hu|]. split; [exact Hr|].
  eexists. split; [apply lookup_insert_eq|]. split; assumption.
Qed.

(** A store the scenario applies to: the manager as constructed. *)
Lemma scenario_commit_undo_commit_redo_witness :
  let rs : rooms := ∅ in
  let s1 := setCanvasState 1 "r1" (Str "A") rs in
  let s2 := setCanvasState 2 "r1" (Str "B") s1 in
  let s3 := undo "r1" s2 in
  let s4 := setCanvasState 3 "r1" (Str "C") s3.1 in
  let s5 := redo "r1" s4 in
  s3.2 = Returned (Str "A")
  ∧ s5.2 = Returned Null
  ∧ ∃ r, s5.1 !! "r1" = Some r
         ∧ snapshots r = [Str "A"; Str "C"] ∧ historyIndex r = 1.
Proof.
  apply (scenario_commit_undo_commit_redo ∅ "r1" (Str "A") (Str "B") (Str "C") 1 2 3).
  unfold empty_room. rewrite lookup_empty. exact I.
Defined.

End DrawingStateFacts.

(** * Properties of the room registry *)
Module RoomManagerFacts.

Import RoomManager Scenarios.

(** A second removal finds nothing to remove. *)
Lemma removeUser_absent (rs : rooms) (roomId userId : string) :
  hasUser roomId userId rs = false → removeUser roomId userId rs = (rs, false).
Proof.
  unfold hasUser, removeUser. destruct (rs !! roomId) as [r|]; [|done].
  destruct (users r !! userId) eqn:E; [|done].
  intros H. apply bool_decide_eq_false in H. destruct H. by eexists.
Qed.

Lemma removeUser_gone (rs : rooms) (roomId userId : string) :
  hasUser roomId userId (removeUser roomId userId rs).1 = false.
Proof.
  unfold removeUser. destruct (rs !! roomId) as [r|] eqn:Er.
  - destruct (users r !! userId) eqn:Eu; cbn [fst]; unfold hasUser.
    + rewrite lookup_insert_eq. cbn [users set_users].
      rewrite lookup_delete_eq. apply bool_decide_eq_false. by intros [? ?].
    + rewrite Er, Eu. apply bool_decide_eq_false. by intros [? ?].
  - cbn [fst]. unfold hasUser. by rewrite Er.
Qed.

(** C9. [removeUser] returns whether the user was in the room; when it
    was, the user is taken out of that room's member map and nothing else
    changes; when the room or the user is absent the registry is left as
    it is.  A second call right after the first returns false and leaves
    the registry unchanged. *)
Theorem removeUser_idempotent (rs : rooms) (roomId userId : string) :
  let first := removeUser roomId userId rs in
  let second := removeUser roomId userId first.1 in
  first.2 = hasUser roomId userId rs
  ∧ (first.2 = true →
     ∃ r, rs !! roomId = Some r
          ∧ first.1
            = <[roomId := Room (room_id r) (delete userId (users r))
                               (createdAt r)]> rs)
  ∧ (first.2 = false → first.1 = rs)
  ∧ hasUser roomId userId first.1 = false
  ∧ second = (first.1, false).
Proof.
  cbv zeta. split; [|split; [|split; [|split]]].
  - unfold removeUser, hasUser. destruct (rs !! roomId) as [r|]; [|done].
    destruct (users r !! userId) eqn:E; cbn [snd]; symmetry.
    + apply bool_decide_eq_true. by eexists.
    + apply bool_decide_eq_false. by intros [? ?].
  - unfold removeUser. destruct (rs !! roomId) as [r|]; [|done].
    destruct (users r !! userId); [|done]. intros _. by exists r.
  - unfold removeUser. destruct (rs !! roomId) as [r|]; [|done].
    by destruct (users r !! userId).
  - apply removeUser_gone.
  - apply removeUser_absent, removeUser_gone.
Qed.

(** One user in one room: the first removal takes the user out, the second
    finds nothing. *)
Lemma removeUser_example :
  let first := removeUser "default" "alice" one_user in
  first.2 = true
  ∧ getUsers "default" first.1 = []
  ∧ removeUser "default" "alice" first.1 = (first.1, false).
Proof. vm_compute. split; [|split]; reflexivity. Qed.

End RoomManagerFacts.

(** * Properties of the router *)
Module ServerFacts.

Import Js Server Scenarios.

(** ** What each handler does *)

Lemma on_draw_start_eq now c data s :
  on_draw_start now c data s
  = match get "point" data with
    | None => (s, [], None)
    | Some point =>
        (s, [Emit (members roomId s ∖ {[socket c]}) "draw-start"
               (Obj [("userId", Str (userId c)); ("point", point);
                     ("timestamp", Num now)])], Some ())
    end.
Proof.
  unfold on_draw_start, bind, prop, socket_to_emit.
  by destruct (get "point" data).
Qed.

Lemma on_draw_move_eq now c data s :
  on_draw_move now c data s
  = match get "points" data with
    | None => (s, [], None)
    | Some points =>
        (s, [Emit (members roomId s ∖ {[socket c]}) "draw-move"
               (Obj [("userId", Str (userId c)); ("points", points);
                     ("timestamp", Num now)])], Some ())
    end.
Proof.
  unfold on_draw_move, bind, prop, socket_to_emit.
  by destruct (get "points" data).
Qed.

Lemma on_draw_end_eq now rnd c data s :
  on_draw_end now rnd c data s
  = match get "path" data with
    | None => (s, [], None)
    | Some path =>
        (State (roomManager s)
               (DrawingStateManager.addDrawing now rnd roomId (userId c) path
                  (drawingStateManager s)).1
               (colorIndex s) (adapter s),
         [Emit (members roomId s ∖ {[socket c]}) "draw-end"
            (Obj [("userId", Str (userId c)); ("path", path);
                  ("timestamp", Num now)])], Some ())
    end.
Proof.
  unfold on_draw_end, bind, prop, socket_to_emit, with_drawingState.
  destruct (get "path" data) as [path|]; [|done].
  by destruct (DrawingStateManager.addDrawing _ _ _ _ _ _).
Qed.

Lemma on_cursor_move_eq c data s :
  on_cursor_move c data s
  = match get "x" data, get "y" data with
    | Some x, Some y =>
        (s, [Emit (members roomId s ∖ {[socket c]}) "cursor-move"
               (Obj [("userId", Str (userId c)); ("x", x); ("y", y)])],
         Some ())
    | _, _ => (s, [], None)
    end.
Proof.
  unfold on_cursor_move, bind, prop, socket_to_emit.
  by destruct (get "x" data), (get "y" data).
Qed.

Lemma on_undo_redo_eq name now c data s :
  on_undo_redo name now c data s
  = match get "canvasState" data with
    | None => (s, [], None)
    | Some v =>
        ((if truthy v
          then State (roomManager s)
                     (DrawingStateManager.setCanvasState now roomId v
                        (drawingStateManager s))
                     (colorIndex s) (adapter s)
          else s),
         [Emit (members roomId s) name
            (Obj [("userId", Str (userId c)); ("canvasState", v)])],
         Some ())
    end.
Proof.
  unfold on_undo_redo, bind, prop, io_to_emit, with_drawingState, ret.
  destruct (get "canvasState" data) as [v|]; [|done].
  by destruct (truthy v).
Qed.

Lemma on_clear_canvas_eq now c s :
  on_clear_canvas now c s
  = (State (roomManager s)
           (DrawingStateManager.clearCanvas now roomId (drawingStateManager s)).1
           (colorIndex s) (adapter s),
     [Emit (members roomId s) "clear-canvas" Undefined], Some ()).
Proof.
  unfold on_clear_canvas, bind, io_to_emit, with_drawingState.
  by destruct (DrawingStateManager.clearCanvas _ _ _).
Qed.

Lemma get_nullish k data : get k data = None ↔ nullish data = true.
Proof. by destruct data. Qed.

Lemma get_not_nullish k data :
  nullish data = false → ∃ v, get k data = Some v.
Proof. destruct data; intros H; try discriminate H; by eexists. Qed.

Lemma not_in_others c s : socket c ∉ members roomId s ∖ {[socket c]}.
Proof. apply not_elem_of_difference. right. by apply elem_of_singleton. Qed.

Lemma two_users_members : members roomId two_users = {["alice"; "bob"]}.
Proof. vm_compute. reflexivity. Qed.

(** ** C8: who receives the echo of an event *)

Ltac one_emission :=
  let e := fresh "e" in
  let He := fresh "He" in
  intros e He; apply list_elem_of_singleton in He; subst e;
  cbn [event recipients event_name].

(** C8. For an event sent by a connection that has joined the room: every
    echo of a draw-start, draw-move, draw-end or cursor-move goes to the
    room without the sender, and every echo of an undo, redo or
    clear-canvas goes to the whole room, the sender included.  The event
    is echoed once, unless its payload is null or undefined, in which
    case the handler raises before emitting. *)
Theorem fan_out_exclusion
    (now : Z) (rnd : string) (c : connection) (ev : inbound) (s : state) :
  socket c ∈ members roomId s →
  let '(_, out, res) := handle now rnd c ev s in
  (∀ e, e ∈ out →
     match ev with
     | DrawStart _ | DrawMove _ | DrawEnd _ | CursorMove _ =>
         event e = event_name ev
         ∧ recipients e = members roomId s ∖ {[socket c]}
         ∧ socket c ∉ recipients e
     | UndoEvent _ | RedoEvent _ | ClearCanvas =>
         event e = event_name ev
         ∧ recipients e = members roomId s
         ∧ socket c ∈ recipients e
     | Ping => True
     end)
  ∧ res = (if nullish_payload ev then None else Some ())
  ∧ length out = (if nullish_payload ev then 0 else 1)%nat.
Proof.
  intros Hin.
  destruct ev as [data|data|data|data|data|data| |];
    unfold handle, on_undo, on_redo, nullish_payload.
  - rewrite on_draw_start_eq.
    destruct (nullish data) eqn:Hn.
    + apply (get_nullish "point") in Hn. rewrite Hn.
      split; [|done]. intros e He. by apply elem_of_nil in He.
    + destruct (get_not_nullish "point" data Hn) as [v ->].
      split; [|done]. one_emission. auto using not_in_others.
  - rewrite on_draw_move_eq.
    destruct (nullish data) eqn:Hn.
    + apply (get_nullish "points") in Hn. rewrite Hn.
      split; [|done]. intros e He. by apply elem_of_nil in He.
    + destruct (get_not_nullish "points" data Hn) as [v ->].
      split; [|done]. one_emission. auto using not_in_others.
  - rewrite on_draw_end_eq.
    destruct (nullish data) eqn:Hn.
    + apply (get_nullish "path") in Hn. rewrite Hn.
      split; [|done]. intros e He. by apply elem_of_nil in He.
    + destruct (get_not_nullish "path" data Hn) as [v ->].
      split; [|done]. one_emission. auto using not_in_others.
  - rewrite on_cursor_move_eq.
    destruct (nullish data) eqn:Hn.
    + apply (get_nullish "x") in Hn. rewrite Hn.
      split; [|done]. intros e He. by apply elem_of_nil in He.
    + destruct (get_not_nullish "x" data Hn) as [x ->].
      destruct (get_not_nullish "y" data Hn) as [y ->].
      split; [|done]. one_emission. auto using not_in_others.
  - rewrite on_undo_redo_eq.
    destruct (nullish data) eqn:Hn.
    + apply (get_nullish "canvasState") in Hn. rewrite Hn.
      split; [|done]. intros e He. by apply elem_of_nil in He.
    + destruct (get_not_nullish "canvasState" data Hn) as [v ->].
      split; [|done]. one_emission. done.
  - rewrite on_undo_redo_eq.
    destruct (nullish data) eqn:Hn.
    + apply (get_nullish "canvasState") in Hn. rewrite Hn.
      split; [|done]. intros e He. by apply elem_of_nil in He.
    + destruct (get_not_nullish "canvasState" data Hn) as [v ->].
      split; [|done]. one_emission. done.
  - rewrite on_clear_canvas_eq. split; [|done]. one_emission. done.
  - unfold on_ping, socket_emit. done.
Qed.

(** An undo with a snapshot, sent by one of two connected clients. *)
Lemma fan_out_exclusion_witness :
  socket alice ∈ members roomId two_users
  ∧ let '(_, out, res) :=
      handle 3 "0.5" alice
        (UndoEvent (Obj [("canvasState", Str "data:image/png;base64,AA")]))
        two_users in
    (∀ e, e ∈ out →
       event e = "undo"
       ∧ recipients e = members roomId two_users
       ∧ socket alice ∈ recipients e)
    ∧ res = Some ()
    ∧ length out = 1%nat.
Proof.
  assert (socket alice ∈ members roomId two_users) as Hin.
  { rewrite two_users_members. apply elem_of_union. left.
    by apply elem_of_singleton. }
  split; [exact Hin|].
  exact (fan_out_exclusion 3 "0.5" alice
           (UndoEvent (Obj [("canvasState", Str "data:image/png;base64,AA")]))
           two_users Hin).
Defined.

(** ** C5: events that lack a required field *)


End ServerFacts.

(** * Sweeping a map *)
Module Sweep.

(** A loop that visits the entries of a map and deletes those that meet a
    condition, counting them. *)
Section sweep.
Context {V : Type} (cond : V → Prop) `{!∀ v, Decision (cond v)}.
Variable f : gmap string V * Z → string * V → gmap string V * Z.
Hypothesis f_eq : ∀ acc e,
  f acc e = if decide (cond e.2) then (delete e.1 acc.1, acc.2 + 1) else acc.

Lemma sweep_None l m c k :
  m !! k = None → (foldl f (m, c) l).1 !! k = None.
Proof.
  revert m c. induction l as [|e l IH]; intros m c Hk; [done|].
  cbn [foldl]. rewrite f_eq. case_decide; cbn [fst snd]; apply IH; [|done].
  destruct (decide (e.1 = k)) as [->|Hne].
  - apply lookup_delete_eq.
  - by rewrite lookup_delete_ne.
Qed.

Lemma sweep_removed l m c k v :
  (k, v) ∈ l → cond v → (foldl f (m, c) l).1 !! k = None.
Proof.
  revert m c. induction l as [|e l IH]; intros m c Hin Hv.
  { by apply elem_of_nil in Hin. }
  apply elem_of_cons in Hin as [<-|Hin]; cbn [foldl].
  - rewrite f_eq. cbn [fst snd]. rewrite decide_True by done.
    apply sweep_None, lookup_delete_eq.
  - destruct (f (m, c) e) as [m' c']. by apply IH.
Qed.

Lemma sweep_kept l m c k :
  (∀ v, (k, v) ∈ l → ¬ cond v) → (foldl f (m, c) l).1 !! k = m !! k.
Proof.
  revert m c. induction l as [|e l IH]; intros m c Hk; [done|].
  cbn [foldl]. rewrite f_eq. case_decide as Hc; cbn [fst snd].
  - rewrite IH by (intros v Hv; apply Hk; by right).
    apply lookup_delete_ne. intros <-.
    apply (Hk e.2); [|done]. destruct e. by left.
  - apply IH. intros v Hv. apply Hk. by right.
Qed.

Lemma sweep_count l m c :
  NoDup l.*1 → (∀ e, e ∈ l → m !! e.1 = Some e.2) →
  Z.of_nat (size (foldl f (m, c) l).1) + ((foldl f (m, c) l).2 - c)
  = Z.of_nat (size m).
Proof.
  revert m c. induction l as [|e l IH]; intros m c Hnd Hin.
  { cbn [foldl fst snd]. lia. }
  cbn [fmap list_fmap] in Hnd. apply NoDup_cons in Hnd as [Hfresh Hnd].
  cbn [foldl]. rewrite f_eq. case_decide as Hc; cbn [fst snd].
  - specialize (IH (delete e.1 m) (c + 1) Hnd).
    rewrite map_size_delete, (Hin e) in IH by by left.
    assert (size m ≠ 0%nat) as Hsz.
    { intros Hz. apply map_size_empty_inv in Hz.
      specialize (Hin e ltac:(by left)). by rewrite Hz, lookup_empty in Hin. }
    cbn [Nat.pred] in IH.
    enough (Z.of_nat (size (foldl f (delete e.1 m, c + 1) l).1)
            + ((foldl f (delete e.1 m, c + 1) l).2 - (c + 1))
            = Z.of_nat (Nat.pred (size m))) by lia.
    apply IH. intros e' He'. rewrite lookup_delete_ne; [apply Hin; by right|].
    intros Heq. apply Hfresh. rewrite Heq.
    apply list_elem_of_fmap. by exists e'.
  - apply IH; [done|]. intros e' He'. apply Hin. by right.
Qed.

Lemma sweep_map (m : gmap string V) :
  (∀ k, (foldl f (m, 0) (map_to_list m)).1 !! k
        = m !! k ≫= λ v, if decide (cond v) then None else Some v)
  ∧ (foldl f (m, 0) (map_to_list m)).2
    = Z.of_nat (size m) - Z.of_nat (size (foldl f (m, 0) (map_to_list m)).1).
Proof.
  split.
  - intros k. destruct (m !! k) as [v|] eqn:E; cbn [mbind option_bind].
    + case_decide as Hc.
      * apply (sweep_removed _ _ _ k v); [|done]. by apply elem_of_map_to_list.
      * rewrite sweep_kept; [done|]. intros v' Hv'.
        apply elem_of_map_to_list in Hv'. congruence.
    + by apply sweep_None.
  - pose proof (sweep_count (map_to_list m) m 0 (NoDup_fst_map_to_list m)) as Hn.
    rewrite <- Hn; [lia|]. intros [k v] He. by apply elem_of_map_to_list.
Qed.
End sweep.

End Sweep.

(** * Further properties of the history store *)
Module DrawingStateMore.

Import Js DrawingStateManager Scenarios DrawingStateFacts Sweep.

(** ** The drawing log *)

Lemma len_nonneg {A : Type} (l : list A) : 0 ≤ len l.
Proof. unfold len. lia. Qed.

Lemma slice_from_last {A : Type} (l : list A) (n : Z) :
  0 < n ≤ len l → slice_from l (- n) = drop (Z.to_nat (len l - n)) l.
Proof.
  intros Hn. unfold slice_from, slice, clamp, len in *.
  destruct (decide (- n < 0)) as [_|]; [|lia].
  destruct (decide (Z.of_nat (length l) < 0)) as [|_]; [lia|].
  rewrite Z.max_l, Z.min_l by lia.
  apply take_ge. rewrite length_drop. lia.
Qed.

(** The log after one more drawing. *)
Lemma addDrawing_room_drawings now rnd userId path r :
  len (drawings r) ≤ 2 * maxHistorySize →
  drawings (addDrawing_room now rnd userId path r)
  = (if decide (len (drawings r) < 2 * maxHistorySize)
     then drawings r
     else drop 101 (drawings r))
    ++ [Drawing userId path (pretty now +:+ "_" +:+ rnd) now].
Proof.
  intros Hle. unfold addDrawing_room.
  cbn [drawings set_drawings]. rewrite len_app.
  unfold maxHistorySize in *.
  destruct (decide (len (drawings r) + 1 > 100 * 2)) as [Hgt|Hle'];
    destruct (decide (len (drawings r) < 2 * 100)) as [Hlt|Hge];
    try lia; cbn [drawings set_drawings]; [|done].
  rewrite slice_from_last by (rewrite len_app; lia).
  rewrite len_app.
  replace (Z.to_nat (len (drawings r) + 1 - 100)) with 101%nat by lia.
  apply drop_app_le. unfold len in *. lia.
Qed.

Lemma addDrawing_room_bounded now rnd userId path r :
  len (drawings (addDrawing_room now rnd userId path r)) ≤ 2 * maxHistorySize.
Proof.
  unfold addDrawing_room. cbn [drawings set_drawings].
  case_decide as Hgt; cbn [drawings set_drawings]; [|lia].
  rewrite len_app in Hgt. unfold maxHistorySize in *.
  rewrite slice_from_last by (rewrite len_app; lia).
  unfold len in *. rewrite length_drop, length_app. simpl. lia.
Qed.

Lemma setCanvasState_room_frame now v r :
  drawings (setCanvasState_room now v r) = drawings r
  ∧ createdAt (setCanvasState_room now v r) = createdAt r
  ∧ canvasState (setCanvasState_room now v r) = v.
Proof. unfold setCanvasState_room. by repeat case_decide. Qed.

Lemma drawings_bounded_invariant rs roomId r :
  reachable rs → rs !! roomId = Some r →
  len (drawings r) ≤ 2 * maxHistorySize.
Proof.
  apply (reachable_invariant (λ r, len (drawings r) ≤ 2 * maxHistorySize)).
  - intros now. unfold new_room, len, maxHistorySize. simpl. lia.
  - intros now v r0 H. by rewrite (proj1 (setCanvasState_room_frame now v r0)).
  - intros now rnd u p r0 _. apply addDrawing_room_bounded.
  - intros r0 H. by rewrite (proj1 (proj2 (undo_room_frame r0))).
  - intros r0 H. by rewrite (proj1 (proj2 (redo_room_frame r0))).
  - intros now r0 _. unfold clearCanvas_room, len, maxHistorySize. simpl. lia.
Qed.

(** X1. The drawing log of a room never holds more than
    [2 * maxHistorySize] = 200 operations, whatever is called on the
    store. *)
Theorem reachable_drawings_bounded (rs : rooms) (roomId : string) :
  reachable rs → len (getDrawings roomId rs) ≤ 2 * maxHistorySize.
Proof.
  intros Hreach. unfold getDrawings.
  destruct (rs !! roomId) as [r|] eqn:E.
  - by apply (drawings_bounded_invariant rs roomId).
  - unfold len, maxHistorySize. simpl. lia.
Qed.

Lemma reachable_drawings_bounded_witness :
  len (getDrawings "default" full_log) ≤ 2 * maxHistorySize.
Proof.
  apply (reachable_drawings_bounded full_log "default").
  apply reachable_run, reachable_new.
Defined.

(** X2. [addDrawing] appends one operation, with the user id and the path
    it was given; when the log already holds 200 operations it keeps the
    newest 99 of them and the new one. *)
Theorem addDrawing_log
    (now : Z) (rnd roomId userId : string) (path : value) (rs : rooms) :
  len (getDrawings roomId rs) ≤ 2 * maxHistorySize →
  ∃ d : drawing,
    getDrawings roomId (addDrawing now rnd roomId userId path rs).1
    = (if decide (len (getDrawings roomId rs) < 2 * maxHistorySize)
       then getDrawings roomId rs
       else drop 101 (getDrawings roomId rs))
      ++ [d]
    ∧ d_userId d = userId
    ∧ d_path d = path.
Proof.
  intros Hle. rewrite addDrawing_eq. cbn [fst].
  assert (getDrawings roomId rs = drawings (the_room now roomId rs)) as Hd.
  { unfold getDrawings, the_room. by destruct (rs !! roomId). }
  rewrite Hd in *. unfold getDrawings at 1. rewrite lookup_insert_eq.
  eexists. split; [by apply addDrawing_room_drawings|]. by split.
Qed.

Lemma addDrawing_log_witness :
  len (getDrawings "default" full_log) = 200
  ∧ ∃ d : drawing,
      getDrawings "default"
        (addDrawing 201 "0.5" "default" "bob" (Arr []) full_log).1
      = drop 101 (getDrawings "default" full_log) ++ [d]
      ∧ d_userId d = "bob"
      ∧ d_path d = Arr [].
Proof.
  assert (len (getDrawings "default" full_log) = 200) as Hfull.
  { vm_compute. reflexivity. }
  split; [exact Hfull|].
  destruct (addDrawing_log 201 "0.5" "default" "bob" (Arr []) full_log)
    as (d & Hlog & Hu & Hp).
  { rewrite Hfull. unfold maxHistorySize. lia. }
  exists d. split; [|by split].
  rewrite Hlog, Hfull. reflexivity.
Defined.

(** ** The size of the history *)

Lemma setCanvasState_room_grows now v r n :
  0 ≤ n → len (history r) ≤ maxHistorySize + n →
  len (history (setCanvasState_room now v r)) ≤ maxHistorySize + n.
Proof.
  intros Hn Hle. unfold setCanvasState_room.
  pose proof (len_slice_le (history r) 0 (historyIndex r + 1)) as Hs.
  assert (∀ l : list entry,
            len l ≤ maxHistorySize + n →
            len (if decide (len (l ++ [Entry v now None]) > maxHistorySize)
                 then tail (l ++ [Entry v now None])
                 else l ++ [Entry v now None]) ≤ maxHistorySize + n) as Hpush.
  { intros l Hl. case_decide as Hcap; rewrite len_app in Hcap.
    - rewrite len_tail; rewrite len_app; unfold len in *; lia.
    - rewrite len_app. lia. }
  destruct (decide (historyIndex r < len (history r) - 1));
    cbn [history historyIndex set_history set_historyIndex set_canvasState].
  - specialize (Hpush (slice (history r) 0 (historyIndex r + 1))).
    case_decide;
      cbn [history historyIndex set_history set_historyIndex set_canvasState]
      in *; apply Hpush; lia.
  - specialize (Hpush (history r)).
    case_decide;
      cbn [history historyIndex set_history set_historyIndex set_canvasState]
      in *; apply Hpush; lia.
Qed.

Lemma clears_nonneg calls : 0 ≤ clears calls.
Proof.
  induction calls as [|c calls IH]; [done|].
  unfold clears in *. cbn [foldr]. destruct (is_clear c.2); lia.
Qed.

Lemma step_history_size now o rs n :
  0 ≤ n →
  all_rooms (λ r, len (history r) ≤ maxHistorySize + n) rs →
  all_rooms (λ r, len (history r)
                  ≤ maxHistorySize + (n + if is_clear o then 1 else 0))
            (step now o rs).
Proof.
  intros Hn Hrs.
  assert (len (history (the_room now (match o with
            | OpGetCanvasState k | OpSetCanvasState k _ | OpAddDrawing _ k _ _
            | OpUndo k | OpRedo k | OpClearCanvas k | OpDeleteRoom k => k end) rs))
          ≤ maxHistorySize + n) as Hthe.
  { unfold the_room.
    destruct (rs !! _) as [r|] eqn:E; cbn [default from_option id].
    - exact (Hrs _ _ E).
    - unfold new_room, len, maxHistorySize. simpl. lia. }
  destruct o as [k|k v|rnd k u p|k|k|k|k]; unfold step; cbn [is_clear];
    rewrite ?Z.add_0_r.
  - unfold getCanvasState, initRoom.
    destruct (rs !! k) eqn:E; cbn [fst]; [done|].
    apply map_Forall_insert_2; [|done].
    unfold new_room, len, maxHistorySize. simpl. lia.
  - rewrite setCanvasState_eq. apply map_Forall_insert_2; [|done].
    by apply setCanvasState_room_grows.
  - rewrite addDrawing_eq. cbn [fst]. apply map_Forall_insert_2; [|done].
    unfold addDrawing_room. by case_decide.
  - destruct (rs !! k) as [r|] eqn:E.
    + rewrite (undo_fst _ _ _ E). apply map_Forall_insert_2; [|done].
      rewrite (proj1 (undo_room_frame r)). exact (Hrs _ _ E).
    + unfold undo. by rewrite E.
  - destruct (rs !! k) as [r|] eqn:E.
    + rewrite (redo_fst _ _ _ E). apply map_Forall_insert_2; [|done].
      rewrite (proj1 (redo_room_frame r)). exact (Hrs _ _ E).
    + unfold redo. by rewrite E.
  - rewrite clearCanvas_eq. cbn [fst]. apply map_Forall_insert_2.
    + unfold clearCanvas_room.
      cbn [history set_history set_historyIndex set_canvasState set_drawings].
      rewrite len_app. lia.
    + eapply map_Forall_impl; [exact Hrs|]. intros ? r Hr. cbn beta in *. lia.
  - unfold deleteRoom. cbn [fst]. by apply map_Forall_delete.
Qed.

Lemma run_history_size calls rs n :
  0 ≤ n →
  all_rooms (λ r, len (history r) ≤ maxHistorySize + n) rs →
  all_rooms (λ r, len (history r) ≤ maxHistorySize + (n + clears calls))
            (run calls rs).
Proof.
  revert rs n. induction calls as [|[now o] calls IH]; intros rs n Hn Hrs.
  - unfold clears. cbn [foldr run foldl]. by rewrite Z.add_0_r.
  - pose proof (clears_nonneg calls) as Hc.
    pose proof (step_history_size now o rs n Hn Hrs) as Hstep.
    apply IH in Hstep; [|destruct (is_clear o); lia].
    eapply map_Forall_impl; [exact Hstep|].
    intros ? r Hr. cbn beta in *. unfold clears in *. cbn [foldr snd].
    destruct (is_clear o); lia.
Qed.

(** X3. After any sequence of calls on a new manager, the history of a
    room holds at most [maxHistorySize] entries plus one for each
    [clearCanvas] in the sequence: commits evict the oldest entry at the
    cap, and only [clearCanvas] appends without evicting.  Without a
    [clearCanvas] the bound is [maxHistorySize] itself. *)
Theorem run_history_bounded
    (calls : list (Z * op)) (roomId : string) (r : room) :
  run calls ∅ !! roomId = Some r →
  len (history r) ≤ maxHistorySize + clears calls.
Proof.
  intros Hr.
  pose proof (run_history_size calls ∅ 0 (Z.le_refl 0)) as H.
  rewrite Z.add_0_l in H. apply (H (map_Forall_empty _) roomId r Hr).
Qed.

Lemma full_history_lookup : full_history !! "default" = Some full_history_room.
Proof. vm_compute. reflexivity. Qed.

Lemma run_history_bounded_witness :
  len (history full_history_room) ≤ maxHistorySize + clears (commits 100 "default").
Proof.
  apply (run_history_bounded (commits 100 "default") "default" full_history_room).
  vm_compute. reflexivity.
Defined.

(** ** Commits, undo and redo together *)

(** X4. A commit onto a full history whose cursor is on the last entry
    drops the oldest entry, appends the new one and leaves the cursor on
    the last position, [maxHistorySize - 1]; the new snapshot is the
    current one. *)
Theorem setCanvasState_evicts_oldest
    (now : Z) (roomId : string) (v : value) (rs : rooms) (r : room) :
  rs !! roomId = Some r →
  len (history r) = maxHistorySize →
  historyIndex r = maxHistorySize - 1 →
  ∃ r', setCanvasState now roomId v rs !! roomId = Some r'
        ∧ history r' = tail (history r) ++ [Entry v now None]
        ∧ historyIndex r' = maxHistorySize - 1
        ∧ canvasState r' = v
        ∧ drawings r' = drawings r.
Proof.
  intros Hr Hlen Hidx. rewrite setCanvasState_eq.
  assert (the_room now roomId rs = r) as -> by (unfold the_room; by rewrite Hr).
  eexists. split; [apply lookup_insert_eq|].
  destruct (setCanvasState_room_evicts now v r Hlen Hidx) as [Hh Hi].
  destruct (setCanvasState_room_frame now v r) as (Hd & _ & Hc).
  rewrite Hh, Hi, Hd, Hc, Hidx. repeat split; lia.
Qed.

Lemma setCanvasState_evicts_oldest_witness :
  ∃ r', setCanvasState 101 "default" (Str "new") full_history !! "default"
        = Some r'
        ∧ history r' = tail (history full_history_room)
                       ++ [Entry (Str "new") 101 None]
        ∧ historyIndex r' = maxHistorySize - 1
        ∧ canvasState r' = Str "new"
        ∧ drawings r' = drawings full_history_room.
Proof.
  apply (setCanvasState_evicts_oldest 101 "default" (Str "new") full_history
           full_history_room); vm_compute; reflexivity.
Defined.

(** X5. Right after a commit there is nothing to redo: [redo] returns null
    and leaves the store as the commit left it. *)
Theorem redo_after_setCanvasState
    (now : Z) (roomId : string) (v : value) (rs : rooms) :
  (∀ r, rs !! roomId = Some r → cursor_ok r) →
  redo roomId (setCanvasState now roomId v rs)
  = (setCanvasState now roomId v rs, Returned Null).
Proof.
  intros Hok. rewrite setCanvasState_eq.
  assert (cursor_ok (the_room now roomId rs)) as Hthe.
  { unfold the_room. destruct (rs !! roomId) as [r|] eqn:E; cbn.
    - by apply Hok.
    - apply cursor_ok_new. }
  destruct (setCanvasState_room_cursor now v _ Hthe) as [Hi _].
  rewrite (redo_eq _ _ _ (lookup_insert_eq _ _ _)).
  rewrite redo_room_stays by lia. cbn [fst snd].
  by rewrite insert_insert_eq.
Qed.

Lemma redo_after_setCanvasState_witness :
  redo "default" (setCanvasState 4 "default" (Str "C") after_undo)
  = (setCanvasState 4 "default" (Str "C") after_undo, Returned Null).
Proof.
  apply (redo_after_setCanvasState 4 "default" (Str "C") after_undo).
  intros r Hr. apply (reachable_cursor_ok after_undo "default"); [|done].
  apply reachable_run, reachable_new.
Defined.

Lemma index_Some {A : Type} (l : list A) (i : Z) (x : A) :
  index l i = Some x ↔ 0 ≤ i ∧ l !! Z.to_nat i = Some x.
Proof.
  unfold index. case_decide; split.
  - done.
  - intros [? _]. lia.
  - intros ?. split; [lia|done].
  - by intros [_ ?].
Qed.

(** After a commit, the entry just below the cursor is the one the cursor
    was on. *)
Lemma setCanvasState_room_previous now v r e :
  cursor_ok r → index (history r) (historyIndex r) = Some e →
  historyIndex (setCanvasState_room now v r) > 0
  ∧ index (history (setCanvasState_room now v r))
          (historyIndex (setCanvasState_room now v r) - 1) = Some e.
Proof.
  intros [Hb _] He. apply index_Some in He as [Hpos He].
  assert (∀ H : list entry,
            len H = historyIndex r + 1 → H !! Z.to_nat (historyIndex r) = Some e →
            let h2 := H ++ [Entry v now None] in
            let i2 := historyIndex r + 1 in
            (if decide (len h2 > maxHistorySize) then i2 - 1 else i2) > 0
            ∧ index (if decide (len h2 > maxHistorySize) then tail h2 else h2)
                    ((if decide (len h2 > maxHistorySize) then i2 - 1 else i2) - 1)
              = Some e) as Hpush.
  { intros H HlenH HH. cbv zeta. rewrite len_app.
    assert (Z.to_nat (historyIndex r) < length H)%nat as Hlt
      by (unfold len in HlenH; lia).
    unfold maxHistorySize. case_decide.
    - split; [lia|]. apply index_Some. split; [lia|].
      rewrite lookup_tail.
      replace (S (Z.to_nat (historyIndex r + 1 - 1 - 1)))
        with (Z.to_nat (historyIndex r)) by lia.
      by rewrite lookup_app_l.
    - split; [lia|]. apply index_Some. split; [lia|].
      replace (Z.to_nat (historyIndex r + 1 - 1))
        with (Z.to_nat (historyIndex r)) by lia.
      by rewrite lookup_app_l. }
  unfold setCanvasState_room.
  destruct (decide (historyIndex r < len (history r) - 1)) as [Hlt|Hge];
    cbn [history historyIndex set_history set_historyIndex set_canvasState].
  - specialize (Hpush (slice (history r) 0 (historyIndex r + 1))).
    cbv zeta in Hpush.
    case_decide;
      cbn [history historyIndex set_history set_historyIndex set_canvasState];
      apply Hpush; try (apply len_slice_prefix; lia);
      rewrite slice_prefix by lia; rewrite lookup_take_lt by lia; done.
  - specialize (Hpush (history r)). cbv zeta in Hpush.
    case_decide;
      cbn [history historyIndex set_history set_historyIndex set_canvasState];
      apply Hpush; try lia; done.
Qed.

(** X6. An [undo] right after a commit returns the snapshot of the entry
    the cursor was on before the commit, and makes it the current one:
    the commit is taken back, also when it evicted the oldest entry. *)
Theorem undo_after_setCanvasState
    (now : Z) (roomId : string) (v : value) (rs : rooms) (r : room) (e : entry) :
  rs !! roomId = Some r → cursor_ok r →
  index (history r) (historyIndex r) = Some e →
  let after := undo roomId (setCanvasState now roomId v rs) in
  after.2 = Returned (state e)
  ∧ getCanvasState now roomId after.1 = (after.1, state e).
Proof.
  intros Hr Hok He. cbv zeta. rewrite setCanvasState_eq.
  assert (the_room now roomId rs = r) as -> by (unfold the_room; by rewrite Hr).
  destruct (setCanvasState_room_previous now v r e Hok He) as [Hpos Hprev].
  rewrite (undo_eq _ _ _ (lookup_insert_eq _ _ _)). cbn [fst snd].
  rewrite insert_insert_eq.
  assert (undo_room (setCanvasState_room now v r)
          = (set_canvasState (state e)
               (set_historyIndex
                  (historyIndex (setCanvasState_room now v r) - 1)
                  (setCanvasState_room now v r)),
             Returned (state e))) as ->.
  { unfold undo_room. destruct (decide _) as [_|]; [|lia].
    cbn [history historyIndex set_historyIndex]. by rewrite Hprev. }
  cbn [fst snd]. split; [done|].
  unfold getCanvasState, initRoom. by rewrite lookup_insert_eq.
Qed.

Lemma undo_after_setCanvasState_witness :
  let after :=
    undo "default" (setCanvasState 101 "default" (Str "new") full_history) in
  after.2 = Returned (Num 100)
  ∧ getCanvasState 101 "default" after.1 = (after.1, Num 100).
Proof.
  apply (undo_after_setCanvasState 101 "default" (Str "new") full_history
           full_history_room (Entry (Num 100) 100 None)).
  - vm_compute. reflexivity.
  - apply (reachable_cursor_ok full_history "default").
    + apply reachable_run, reachable_new.
    + vm_compute. reflexivity.
  - vm_compute. reflexivity.
Defined.

(** ** Undo and redo undo each other *)

Lemma set_canvasState_id r : set_canvasState (canvasState r) r = r.
Proof. by destruct r. Qed.

(** X7. When the current snapshot is the one of the entry at the cursor,
    an [undo] that moves followed by a [redo] restores the store exactly,
    and the [redo] returns the snapshot that was current. *)
Theorem redo_after_undo
    (roomId : string) (rs : rooms) (r : room) (e : entry) :
  rs !! roomId = Some r → cursor_ok r → historyIndex r > 0 →
  index (history r) (historyIndex r) = Some e → canvasState r = state e →
  redo roomId (undo roomId rs).1 = (rs, Returned (canvasState r)).
Proof.
  intros Hr Hok Hpos He Hc.
  destruct (undo_room_moves r Hok Hpos) as (e' & _ & Hu).
  rewrite (undo_fst _ _ _ Hr), Hu. cbn [fst].
  rewrite (redo_eq _ _ _ (lookup_insert_eq _ _ _)), insert_insert_eq.
  assert (redo_room (Room (state e') (drawings r) (history r)
                          (historyIndex r - 1) (createdAt r))
          = (r, Returned (canvasState r))) as ->.
  { destruct Hok as [Hb _]. unfold redo_room.
    cbn [history historyIndex set_historyIndex].
    destruct (decide _) as [_|]; [|lia].
    replace (historyIndex r - 1 + 1) with (historyIndex r) by lia.
    rewrite He. unfold set_canvasState, set_historyIndex.
    cbn [history historyIndex drawings createdAt canvasState].
    rewrite <- Hc. by destruct r. }
  cbn [fst snd]. by rewrite insert_id.
Qed.

Lemma redo_after_undo_witness :
  redo "default" (undo "default" two_commits).1
  = (two_commits, Returned (Str "B")).
Proof.
  apply (redo_after_undo "default" two_commits two_commits_room
           (Entry (Str "B") 2 None)).
  - vm_compute. reflexivity.
  - apply (reachable_cursor_ok two_commits "default").
    + apply reachable_run, reachable_new.
    + vm_compute. reflexivity.
  - vm_compute. reflexivity.
  - vm_compute. reflexivity.
  - reflexivity.
Defined.

(** X8. The mirror image: a [redo] that moves followed by an [undo]
    restores the store exactly, and the [undo] returns the snapshot that
    was current. *)
Theorem undo_after_redo
    (roomId : string) (rs : rooms) (r : room) (e : entry) :
  rs !! roomId = Some r → cursor_ok r →
  historyIndex r < len (history r) - 1 →
  index (history r) (historyIndex r) = Some e → canvasState r = state e →
  undo roomId (redo roomId rs).1 = (rs, Returned (canvasState r)).
Proof.
  intros Hr Hok Hlt He Hc.
  destruct (redo_room_moves r Hok Hlt) as (e' & _ & Hu).
  rewrite (redo_fst _ _ _ Hr), Hu. cbn [fst].
  rewrite (undo_eq _ _ _ (lookup_insert_eq _ _ _)), insert_insert_eq.
  assert (undo_room (Room (state e') (drawings r) (history r)
                          (historyIndex r + 1) (createdAt r))
          = (r, Returned (canvasState r))) as ->.
  { apply index_Some in He as [Hpos He].
    unfold undo_room. cbn [history historyIndex set_historyIndex].
    destruct (decide _) as [_|]; [|lia].
    replace (historyIndex r + 1 - 1) with (historyIndex r) by lia.
    assert (index (history r) (historyIndex r) = Some e) as ->
      by by apply index_Some.
    unfold set_canvasState, set_historyIndex.
    cbn [history historyIndex drawings createdAt canvasState].
    rewrite <- Hc. by destruct r. }
  cbn [fst snd]. by rewrite insert_id.
Qed.

Lemma undo_after_redo_witness :
  undo "default" (redo "default" after_undo).1
  = (after_undo, Returned (Str "A")).
Proof.
  apply (undo_after_redo "default" after_undo after_undo_room
           (Entry (Str "A") 1 None)).
  - vm_compute. reflexivity.
  - apply (reachable_cursor_ok after_undo "default").
    + apply reachable_run, reachable_new.
    + vm_compute. reflexivity.
  - vm_compute. reflexivity.
  - vm_compute. reflexivity.
  - reflexivity.
Defined.

(** ** Reading back, deleting and sweeping *)

(** X9. What [getCanvasState] returns follows the last state-setting call:
    the committed snapshot after [setCanvasState], null after
    [clearCanvas]; and on a room that exists it leaves the store alone. *)
Theorem getCanvasState_reads_back
    (now now' : Z) (roomId : string) (v : value) (rs : rooms) :
  getCanvasState now' roomId (setCanvasState now roomId v rs)
  = (setCanvasState now roomId v rs, v)
  ∧ getCanvasState now' roomId (clearCanvas now roomId rs).1
    = ((clearCanvas now roomId rs).1, Null).
Proof.
  rewrite setCanvasState_eq, clearCanvas_eq. cbn [fst].
  unfold getCanvasState, initRoom. rewrite !lookup_insert_eq.
  by rewrite (proj2 (proj2 (setCanvasState_room_frame now v
                              (the_room now roomId rs)))).
Qed.

(** X10. A deleted room is forgotten: [undo] and [redo] return null
    without bringing it back, its drawing log and statistics are gone, a
    later [getCanvasState] starts from null, and a second [deleteRoom]
    reports that there was nothing to delete.  The other rooms are as they
    were. *)
Theorem deleteRoom_forgets (now : Z) (roomId k : string) (rs : rooms) :
  let after := (deleteRoom roomId rs).1 in
  undo roomId after = (after, Returned Null)
  ∧ redo roomId after = (after, Returned Null)
  ∧ getDrawings roomId after = []
  ∧ getRoomStats roomId after = None
  ∧ (getCanvasState now roomId after).2 = Null
  ∧ deleteRoom roomId after = (after, false)
  ∧ (k ≠ roomId → after !! k = rs !! k).
Proof.
  cbv zeta. unfold deleteRoom. cbn [fst].
  unfold undo, redo, getDrawings, getRoomStats, getCanvasState, initRoom.
  rewrite !lookup_delete_eq. cbn [snd].
  do 5 (split; [done|]). split.
  - by rewrite delete_delete_eq.
  - intros Hne. by rewrite lookup_delete_ne.
Qed.


(** X11. [cleanup(maxAge)] deletes exactly the rooms that are older than
    [maxAge] and have an empty drawing log: a room with a drawing, or a
    young one, is kept as it is whatever else is deleted; the number
    returned is the number of rooms deleted. *)
Theorem cleanup_removes_expired (now maxAge : Z) (rs : rooms) (roomId : string) :
  (cleanup now maxAge rs).1 !! roomId
  = (rs !! roomId ≫= λ r,
       if decide (now - createdAt r > maxAge ∧ len (drawings r) = 0)
       then None else Some r)
  ∧ (cleanup now maxAge rs).2
    = Z.of_nat (size rs) - Z.of_nat (size (cleanup now maxAge rs).1).
Proof.
  unfold cleanup.
  destruct (sweep_map
              (λ r, now - createdAt r > maxAge ∧ len (drawings r) = 0)
              (cleanup_step now maxAge) (λ acc e, eq_refl) rs) as [Hl Hc].
  split; [apply Hl|apply Hc].
Qed.

End DrawingStateMore.

(** * Further properties of the room registry *)
Module RoomManagerMore.

Import RoomManager Scenarios Sweep.

(** The room [addUser] works on: the stored one, or a new empty one. *)
Lemma addUser_eq now roomId u rs :
  addUser now roomId u rs
  = (<[roomId :=
         set_users (<[id u := u]> (users (default (Room roomId ∅ now)
                                                  (rs !! roomId))))
                   (default (Room roomId ∅ now) (rs !! roomId))]> rs,
     true).
Proof.
  unfold addUser, getRoom, createRoom.
  destruct (rs !! roomId) as [r|] eqn:E; cbn [default from_option id]; [done|].
  by rewrite insert_insert_eq.
Qed.

(** X12. After [addUser] the user is a member of the room, created if it
    did not exist, and is listed by [getUsers]; the member count goes up by
    one for a new member and stays for one already there; no other
    membership changes. *)
Theorem addUser_joins
    (now : Z) (roomId k uid : string) (u : user) (rs : rooms) :
  let after := (addUser now roomId u rs).1 in
  hasUser roomId (id u) after = true
  ∧ u ∈ getUsers roomId after
  ∧ getUserCount roomId after
    = (getUserCount roomId rs
       + if hasUser roomId (id u) rs then 0 else 1)%nat
  ∧ ((k, uid) ≠ (roomId, id u) → hasUser k uid after = hasUser k uid rs).
Proof.
  cbv zeta. rewrite addUser_eq. cbn [fst].
  unfold hasUser, getUsers, getUserCount. rewrite lookup_insert_eq.
  cbn [users set_users]. split; [|split; [|split]].
  - apply bool_decide_eq_true. rewrite lookup_insert_eq. by eexists.
  - apply list_elem_of_fmap. exists (id u, u). split; [done|].
    apply elem_of_map_to_list, lookup_insert_eq.
  - rewrite map_size_insert.
    destruct (rs !! roomId) as [r|]; cbn [default from_option Datatypes.id users].
    + destruct (users r !! id u) eqn:E.
      * rewrite bool_decide_eq_true_2 by by eexists. simpl. lia.
      * rewrite bool_decide_eq_false_2 by by intros [? ?]. lia.
    + by rewrite lookup_empty, map_size_empty.
  - intros Hne. destruct (decide (k = roomId)) as [->|Hk].
    + rewrite lookup_insert_eq. cbn [users set_users].
      rewrite lookup_insert_ne by congruence.
      destruct (rs !! roomId) as [r|]; cbn [default from_option Datatypes.id users].
      * done.
      * rewrite lookup_empty. apply bool_decide_eq_false. by intros [? ?].
    + by rewrite lookup_insert_ne.
Qed.

(** X13. [addUser] is an upsert: adding the same user again changes
    nothing. *)
Theorem addUser_idempotent
    (now now' : Z) (roomId : string) (u : user) (rs : rooms) :
  addUser now' roomId u (addUser now roomId u rs).1
  = ((addUser now roomId u rs).1, true).
Proof.
  rewrite (addUser_eq now), (addUser_eq now'). cbn [fst].
  rewrite lookup_insert_eq. cbn [default from_option Datatypes.id].
  rewrite insert_insert_eq. unfold set_users. cbn [users room_id createdAt].
  by rewrite insert_insert_eq.
Qed.

(** X14. A user who joins an existing room and leaves again leaves the
    registry exactly as it was. *)
Theorem removeUser_after_addUser
    (now : Z) (roomId : string) (u : user) (rs : rooms) (r : room) :
  rs !! roomId = Some r → users r !! id u = None →
  removeUser roomId (id u) (addUser now roomId u rs).1 = (rs, true).
Proof.
  intros Hr Hu. rewrite addUser_eq. cbn [fst]. rewrite Hr.
  cbn [default from_option Datatypes.id].
  unfold removeUser. rewrite lookup_insert_eq. cbn [users set_users].
  rewrite lookup_insert_eq, insert_insert_eq.
  unfold set_users. cbn [users room_id createdAt].
  rewrite delete_insert_eq, delete_id by done.
  f_equal. apply insert_id. rewrite Hr. by destruct r.
Qed.

Lemma removeUser_after_addUser_witness :
  removeUser "default" "bob"
    (addUser 2 "default" (User "bob" "BoldFox2" "#4ECDC4" "bob") one_user).1
  = (one_user, true).
Proof.
  apply (removeUser_after_addUser 2 "default"
           (User "bob" "BoldFox2" "#4ECDC4" "bob") one_user
           (Room "default"
              {["alice" := User "alice" "HappyPanda1" "#FF6B6B" "alice"]} 1));
    vm_compute; reflexivity.
Defined.

(** X15. [removeUser] never removes a room: the rooms of the registry are
    the same after it, also when the last member leaves, and their ids and
    creation times are unchanged; the member count of the room goes down by
    one when the user was a member. *)
Theorem removeUser_keeps_rooms (roomId userId k : string) (rs : rooms) :
  let after := (removeUser roomId userId rs).1 in
  room_id <$> (after !! k) = room_id <$> (rs !! k)
  ∧ createdAt <$> (after !! k) = createdAt <$> (rs !! k)
  ∧ getUserCount roomId after
    = (getUserCount roomId rs
       - if hasUser roomId userId rs then 1 else 0)%nat.
Proof.
  cbv zeta. unfold removeUser, hasUser, getUserCount.
  destruct (rs !! roomId) as [r|] eqn:Er; cbn [fst].
  - destruct (users r !! userId) as [u|] eqn:Eu; cbn [fst].
    + rewrite lookup_insert_eq. cbn [users set_users].
      rewrite bool_decide_eq_true_2 by by eexists.
      rewrite map_size_delete, Eu.
      destruct (decide (k = roomId)) as [->|Hk].
      * rewrite lookup_insert_eq, Er.
        split; [done|]. split; [done|]. cbn [Datatypes.id]. lia.
      * rewrite lookup_insert_ne by done.
        split; [done|]. split; [done|]. cbn [Datatypes.id]. lia.
    + rewrite Er. rewrite bool_decide_eq_false_2 by by intros [? ?].
      split; [done|]. split; [done|]. lia.
  - rewrite Er. done.
Qed.

(** X16. [cleanupEmptyRooms(maxAge)] deletes exactly the rooms that have no
    member and are older than [maxAge]; every other room is kept as it is,
    so a room with a member is never deleted, whatever its age; the number
    returned is the number of rooms deleted. *)
Theorem cleanupEmptyRooms_removes_idle
    (now maxAge : Z) (rs : rooms) (roomId : string) :
  (cleanupEmptyRooms now maxAge rs).1 !! roomId
  = (rs !! roomId ≫= λ r,
       if decide (size (users r) = 0%nat ∧ now - createdAt r > maxAge)
       then None else Some r)
  ∧ (getUserCount roomId rs ≠ 0%nat →
     (cleanupEmptyRooms now maxAge rs).1 !! roomId = rs !! roomId)
  ∧ (cleanupEmptyRooms now maxAge rs).2
    = Z.of_nat (size rs) - Z.of_nat (size (cleanupEmptyRooms now maxAge rs).1).
Proof.
  unfold cleanupEmptyRooms.
  destruct (sweep_map
              (λ r, size (users r) = 0%nat ∧ now - createdAt r > maxAge)
              (cleanupEmptyRooms_step now maxAge) (λ acc e, eq_refl) rs)
    as [Hl Hc].
  split; [apply Hl|]. split; [|apply Hc].
  intros Hcount. rewrite Hl. unfold getUserCount in Hcount.
  destruct (rs !! roomId) as [r|]; [|done]. cbn [mbind option_bind].
  rewrite decide_False; [done|]. by intros [? _].
Qed.

End RoomManagerMore.

(** * The history as the router uses it *)
Module InSync.

Import Js DrawingStateManager.

Lemma in_sync_new now : in_sync (new_room now).
Proof. by split. Qed.

Lemma last_tail_snoc {A : Type} (l : list A) (x : A) :
  l ≠ [] → last (tail (l ++ [x])) = Some x.
Proof. destruct l as [|a l]; [done|]. intros _. apply last_snoc. Qed.

Lemma in_sync_setCanvasState now v r :
  in_sync r → in_sync (setCanvasState_room now v r).
Proof.
  intros [Hi _]. unfold setCanvasState_room.
  destruct (decide (historyIndex r < len (history r) - 1)) as [|_]; [lia|].
  cbn [history historyIndex set_history set_historyIndex set_canvasState].
  rewrite DrawingStateFacts.len_app. unfold in_sync.
  case_decide as Hcap;
    cbn [history historyIndex canvasState set_history set_historyIndex
         set_canvasState].
  - assert (history r ≠ []) as Hne.
    { intros Hnil. rewrite Hnil in Hcap. unfold len, maxHistorySize in Hcap.
      simpl in Hcap. lia. }
    rewrite last_tail_snoc by done.
    rewrite DrawingStateFacts.len_tail;
      rewrite DrawingStateFacts.len_app; [split; [lia|done]|].
    unfold len. lia.
  - rewrite last_snoc, DrawingStateFacts.len_app. split; [lia|done].
Qed.

Lemma in_sync_addDrawing now rnd u p r :
  in_sync r → in_sync (addDrawing_room now rnd u p r).
Proof. unfold addDrawing_room. by case_decide. Qed.

Lemma in_sync_clearCanvas now r : in_sync r → in_sync (clearCanvas_room now r).
Proof.
  intros [Hi _]. unfold clearCanvas_room, in_sync.
  cbn [history historyIndex canvasState set_history set_historyIndex
       set_canvasState set_drawings].
  rewrite last_snoc, DrawingStateFacts.len_app. split; [lia|done].
Qed.

Lemma in_sync_the_room now k d :
  all_rooms in_sync d → in_sync (the_room now k d).
Proof.
  intros Hd. unfold the_room. destruct (d !! k) as [r|] eqn:E; cbn.
  - exact (Hd _ _ E).
  - apply in_sync_new.
Qed.

End InSync.

(** * Further properties of the router *)
Module ServerMore.

Import Js Server Scenarios ServerFacts.

(** The colour and the user object of a new connection. *)
Lemma palette_lookup (n : nat) :
  ∃ color, USER_COLORS !! (n `mod` length USER_COLORS)%nat = Some color.
Proof.
  apply lookup_lt_is_Some. apply Nat.mod_upper_bound. by cbn.
Qed.

Lemma members_State rm d ci ad room :
  members room (State rm d ci ad) = default ∅ (ad !! room).
Proof. reflexivity. Qed.

(** ** Connecting *)

Lemma on_connection_eq now c s :
  on_connection now c s
  = (let userColor :=
       default "" (USER_COLORS !! (colorIndex s `mod` length USER_COLORS)%nat) in
     let user := RoomManager.User (userId c) (username c) userColor (socket c) in
     let rm := (RoomManager.addUser now roomId user (roomManager s)).1 in
     (State rm
        (DrawingStateManager.getCanvasState now roomId (drawingStateManager s)).1
        (S (colorIndex s))
        (<[roomId := {[socket c]} ∪ members roomId s]> (adapter s)),
      [Emit {[socket c]} "init"
         (Obj [("userId", Str (userId c)); ("username", Str (username c));
               ("color", Str userColor);
               ("canvasState",
                (DrawingStateManager.getCanvasState now roomId
                   (drawingStateManager s)).2)]);
       Emit {[socket c]} "users"
         (Arr (user_object <$> RoomManager.getUsers roomId rm));
       Emit (({[socket c]} ∪ members roomId s) ∖ {[socket c]}) "user-joined"
         (user_object user)],
      Some ())).
Proof.
  unfold on_connection, bind, with_drawingState, with_roomManager, socket_emit,
    socket_to_emit.
  cbn [roomManager drawingStateManager colorIndex adapter].
  destruct (DrawingStateManager.getCanvasState now roomId (drawingStateManager s))
    as [d v].
  cbn [roomManager drawingStateManager colorIndex adapter fst snd app].
  rewrite members_State, lookup_insert_eq. reflexivity.
Qed.

(** ** Disconnecting *)

Lemma on_disconnect_eq c s :
  on_disconnect c s
  = (let rm := (RoomManager.removeUser roomId (userId c) (roomManager s)).1 in
     (State rm (drawingStateManager s) (colorIndex s)
        (<[roomId := members roomId s ∖ {[socket c]}]> (adapter s)),
      [Emit ((members roomId s ∖ {[socket c]}) ∖ {[socket c]}) "user-left"
         (Str (userId c));
       Emit (members roomId s ∖ {[socket c]}) "users"
         (Arr (user_object <$> RoomManager.getUsers roomId rm))],
      Some ())).
Proof.
  unfold on_disconnect, bind, with_roomManager, socket_to_emit, io_to_emit.
  cbn [roomManager drawingStateManager colorIndex adapter].
  destruct (RoomManager.removeUser roomId (userId c) (roomManager s)) as [rm b].
  cbn [roomManager drawingStateManager colorIndex adapter fst snd app].
  rewrite !members_State, !lookup_insert_eq. reflexivity.
Qed.

Lemma addUser_hasUser now room u rm :
  RoomManager.hasUser room (RoomManager.id u) (RoomManager.addUser now room u rm).1
  = true.
Proof.
  rewrite RoomManagerMore.addUser_eq. cbn [fst]. unfold RoomManager.hasUser.
  rewrite lookup_insert_eq. cbn [RoomManager.users RoomManager.set_users].
  apply bool_decide_eq_true. rewrite lookup_insert_eq. by eexists.
Qed.

Lemma others_after_join (x : string) (M : gset string) :
  ({[x]} ∪ M) ∖ {[x]} = M ∖ {[x]}.
Proof.
  apply set_eq. intros y.
  rewrite !elem_of_difference, elem_of_union, elem_of_singleton. tauto.
Qed.

Lemma others_twice (x : string) (M : gset string) :
  (M ∖ {[x]}) ∖ {[x]} = M ∖ {[x]}.
Proof.
  apply set_eq. intros y. rewrite !elem_of_difference. tauto.
Qed.

(** X17. A new connection joins the room and the registry, and three
    events go out, in this order: [init] and [users] to the newcomer
    alone, [user-joined] to the members that were there, never to the
    newcomer.  [init] carries the newcomer's id and the room's current
    snapshot. *)
Theorem connection_fan_out (now : Z) (c : connection) (s : state) :
  let '(s', out, res) := on_connection now c s in
  res = Some ()
  ∧ members roomId s' = {[socket c]} ∪ members roomId s
  ∧ RoomManager.hasUser roomId (userId c) (roomManager s') = true
  ∧ ∃ init users joined,
      out = [Emit {[socket c]} "init" init;
             Emit {[socket c]} "users" users;
             Emit (members roomId s ∖ {[socket c]}) "user-joined" joined]
      ∧ get "userId" init = Some (Str (userId c))
      ∧ get "canvasState" init
        = Some (DrawingStateManager.getCanvasState now roomId
                  (drawingStateManager s)).2.
Proof.
  rewrite on_connection_eq. cbv zeta. cbv beta iota.
  split; [done|]. split.
  { by rewrite members_State, lookup_insert_eq. }
  split.
  { cbn [roomManager]. apply (addUser_hasUser now roomId (RoomManager.User _ _ _ _)). }
  rewrite others_after_join. do 3 eexists. split; [reflexivity|].
  split; reflexivity.
Qed.

(** X18. The colours go round the palette: a new user gets
    [USER_COLORS[colorIndex mod 10]], which is always one of the ten
    colours, is registered with it under the socket's id, and the counter
    moves on by one. *)
Theorem connection_colour (now : Z) (c : connection) (s : state) :
  let s' := (on_connection now c s).1.1 in
  colorIndex s' = S (colorIndex s)
  ∧ ∃ color r,
      USER_COLORS !! (colorIndex s `mod` 10)%nat = Some color
      ∧ roomManager s' !! roomId = Some r
      ∧ RoomManager.users r !! userId c
        = Some (RoomManager.User (userId c) (username c) color (socket c)).
Proof.
  cbv zeta. rewrite on_connection_eq. cbv zeta. cbn [fst colorIndex roomManager].
  split; [done|].
  destruct (palette_lookup (colorIndex s)) as [color Hcolor].
  change (length USER_COLORS) with 10%nat in *. rewrite Hcolor.
  cbn [default from_option id].
  rewrite RoomManagerMore.addUser_eq. cbn [fst].
  eexists color, _. split; [done|]. split; [apply lookup_insert_eq|].
  cbn [RoomManager.users RoomManager.set_users RoomManager.id].
  apply lookup_insert_eq.
Qed.

(** X19. On a disconnect the socket leaves the room and the registry, the
    canvas state and history are left as they are, and two events go out,
    [user-left] then [users], both to the remaining members: the socket
    that left receives nothing. *)
Theorem disconnect_fan_out (c : connection) (s : state) :
  let '(s', out, res) := on_disconnect c s in
  res = Some ()
  ∧ members roomId s' = members roomId s ∖ {[socket c]}
  ∧ RoomManager.hasUser roomId (userId c) (roomManager s') = false
  ∧ drawingStateManager s' = drawingStateManager s
  ∧ colorIndex s' = colorIndex s
  ∧ (∃ users,
       out = [Emit (members roomId s ∖ {[socket c]}) "user-left"
                (Str (userId c));
              Emit (members roomId s ∖ {[socket c]}) "users" users])
  ∧ (∀ e, e ∈ out → socket c ∉ recipients e).
Proof.
  rewrite on_disconnect_eq. cbv zeta. cbv beta iota. rewrite others_twice.
  split; [done|]. split.
  { by rewrite members_State, lookup_insert_eq. }
  split.
  { cbn [roomManager]. apply RoomManagerFacts.removeUser_gone. }
  split; [done|]. split; [done|]. split; [by eexists|].
  intros e He. apply elem_of_cons in He as [->|He].
  - apply not_in_others.
  - apply list_elem_of_singleton in He as ->. apply not_in_others.
Qed.

(** The state a handler leaves behind. *)
Lemma handle_state now rnd c ev s :
  (handle now rnd c ev s).1.1
  = State (roomManager s)
      (match ev with
       | DrawEnd data =>
           match get "path" data with
           | Some path =>
               (DrawingStateManager.addDrawing now rnd roomId (userId c) path
                  (drawingStateManager s)).1
           | None => drawingStateManager s
           end
       | UndoEvent data | RedoEvent data =>
           match get "canvasState" data with
           | Some v =>
               if truthy v
               then DrawingStateManager.setCanvasState now roomId v
                      (drawingStateManager s)
               else drawingStateManager s
           | None => drawingStateManager s
           end
       | ClearCanvas =>
           (DrawingStateManager.clearCanvas now roomId (drawingStateManager s)).1
       | DrawStart _ | DrawMove _ | CursorMove _ | Ping => drawingStateManager s
       end)
      (colorIndex s) (adapter s).
Proof.
  destruct s as [rm d ci ad].
  destruct ev as [data|data|data|data|data|data| |];
    unfold handle, on_undo, on_redo;
    cbn [roomManager drawingStateManager colorIndex adapter].
  - rewrite on_draw_start_eq. by destruct (get "point" data).
  - rewrite on_draw_move_eq. by destruct (get "points" data).
  - rewrite on_draw_end_eq. by destruct (get "path" data).
  - rewrite on_cursor_move_eq. by destruct (get "x" data), (get "y" data).
  - rewrite on_undo_redo_eq.
    destruct (get "canvasState" data) as [v|]; [|done]. by destruct (truthy v).
  - rewrite on_undo_redo_eq.
    destruct (get "canvasState" data) as [v|]; [|done]. by destruct (truthy v).
  - by rewrite on_clear_canvas_eq.
  - done.
Qed.

(** X20. No event a client sends changes who is in the room: the registry,
    Socket.io's room membership and the colour counter are the same after
    every handler, and so is the state of every room but the default one;
    draw-start, draw-move, cursor-move and ping change nothing at all. *)
Theorem handle_frame
    (now : Z) (rnd : string) (c : connection) (ev : inbound) (s : state)
    (k : string) :
  let s' := (handle now rnd c ev s).1.1 in
  roomManager s' = roomManager s
  ∧ adapter s' = adapter s
  ∧ colorIndex s' = colorIndex s
  ∧ (k ≠ roomId → drawingStateManager s' !! k = drawingStateManager s !! k)
  ∧ match ev with
    | DrawStart _ | DrawMove _ | CursorMove _ | Ping => s' = s
    | DrawEnd _ | UndoEvent _ | RedoEvent _ | ClearCanvas => True
    end.
Proof.
  cbv zeta. rewrite handle_state.
  cbn [roomManager drawingStateManager colorIndex adapter].
  do 3 (split; [done|]). split.
  - intros Hk.
    destruct ev as [data|data|data|data|data|data| |]; try done.
    + destruct (get "path" data); [|done].
      rewrite DrawingStateFacts.addDrawing_eq. cbn [fst].
      by rewrite lookup_insert_ne.
    + destruct (get "canvasState" data) as [v|]; [|done].
      destruct (truthy v); [|done].
      rewrite DrawingStateFacts.setCanvasState_eq. by rewrite lookup_insert_ne.
    + destruct (get "canvasState" data) as [v|]; [|done].
      destruct (truthy v); [|done].
      rewrite DrawingStateFacts.setCanvasState_eq. by rewrite lookup_insert_ne.
    + rewrite DrawingStateFacts.clearCanvas_eq. cbn [fst].
      by rewrite lookup_insert_ne.
  - destruct ev; try exact I; by destruct s.
Qed.

(** X21. Whoever connects after an undo or redo that carried a snapshot
    receives that snapshot in [init]; after a clear-canvas the newcomer
    receives null. *)
Theorem late_joiner_snapshot
    (now now' : Z) (rnd : string) (c c' : connection) (ev : inbound)
    (v : value) (s : state) :
  sets_snapshot ev v →
  ∃ init rest,
    (on_connection now' c' (handle now rnd c ev s).1.1).1.2
    = Emit {[socket c']} "init" init :: rest
    ∧ get "canvasState" init = Some v.
Proof.
  intros Hev. rewrite on_connection_eq. cbv zeta. cbn [fst snd].
  do 2 eexists. split; [reflexivity|].
  cbn [get field String.eqb Ascii.eqb Bool.eqb default from_option id].
  f_equal. rewrite handle_state. cbn [drawingStateManager].
  destruct ev as [data|data|data|data|data|data| |];
    cbn [sets_snapshot] in Hev; try done.
  - destruct Hev as [-> ->].
    rewrite DrawingStateFacts.setCanvasState_eq.
    unfold DrawingStateManager.getCanvasState, DrawingStateManager.initRoom.
    rewrite lookup_insert_eq. cbn [snd].
    apply DrawingStateMore.setCanvasState_room_frame.
  - destruct Hev as [-> ->].
    rewrite DrawingStateFacts.setCanvasState_eq.
    unfold DrawingStateManager.getCanvasState, DrawingStateManager.initRoom.
    rewrite lookup_insert_eq. cbn [snd].
    apply DrawingStateMore.setCanvasState_room_frame.
  - subst v. rewrite DrawingStateFacts.clearCanvas_eq. cbn [fst].
    unfold DrawingStateManager.getCanvasState, DrawingStateManager.initRoom.
    by rewrite lookup_insert_eq.
Qed.

Lemma late_joiner_snapshot_witness :
  ∃ init rest,
    (on_connection 4 bob
       (handle 3 "0.5" alice
          (UndoEvent (Obj [("canvasState", Str "data:image/png")]))
          two_users).1.1).1.2
    = Emit {[socket bob]} "init" init :: rest
    ∧ get "canvasState" init = Some (Str "data:image/png").
Proof.
  apply (late_joiner_snapshot 3 4 "0.5" alice bob
           (UndoEvent (Obj [("canvasState", Str "data:image/png")]))
           (Str "data:image/png") two_users).
  split; reflexivity.
Defined.

(** ** What the server can reach *)

Lemma step_in_sync now rnd t s :
  DrawingStateManager.all_rooms DrawingStateManager.in_sync (drawingStateManager s) →
  DrawingStateManager.all_rooms DrawingStateManager.in_sync (drawingStateManager (step now rnd t s)).
Proof.
  intros Hs. destruct t as [c|c ev|c]; unfold step.
  - rewrite on_connection_eq. cbv zeta. cbn [fst drawingStateManager].
    unfold DrawingStateManager.getCanvasState, DrawingStateManager.initRoom.
    destruct (drawingStateManager s !! roomId) eqn:E; cbn [fst]; [done|].
    apply map_Forall_insert_2; [apply InSync.in_sync_new|done].
  - rewrite handle_state. cbn [drawingStateManager].
    destruct ev as [data|data|data|data|data|data| |]; try done.
    + destruct (get "path" data); [|done].
      rewrite DrawingStateFacts.addDrawing_eq. cbn [fst].
      apply map_Forall_insert_2; [|done].
      by apply InSync.in_sync_addDrawing, InSync.in_sync_the_room.
    + destruct (get "canvasState" data) as [v|]; [|done].
      destruct (truthy v); [|done].
      rewrite DrawingStateFacts.setCanvasState_eq.
      apply map_Forall_insert_2; [|done].
      by apply InSync.in_sync_setCanvasState, InSync.in_sync_the_room.
    + destruct (get "canvasState" data) as [v|]; [|done].
      destruct (truthy v); [|done].
      rewrite DrawingStateFacts.setCanvasState_eq.
      apply map_Forall_insert_2; [|done].
      by apply InSync.in_sync_setCanvasState, InSync.in_sync_the_room.
    + rewrite DrawingStateFacts.clearCanvas_eq. cbn [fst].
      apply map_Forall_insert_2; [|done].
      by apply InSync.in_sync_clearCanvas, InSync.in_sync_the_room.
  - rewrite on_disconnect_eq. cbv zeta. by cbn [fst drawingStateManager].
Qed.

(** X22. The router only ever commits and clears: in every state the
    server can reach, the cursor of each room is on the last entry of its
    history and the current snapshot is that entry's snapshot (null and -1
    for an empty history). *)
Theorem server_history_in_sync (s : state) (k : string) (r : DrawingStateManager.room) :
  reachable s → drawingStateManager s !! k = Some r →
  DrawingStateManager.historyIndex r
  = DrawingStateManager.len (DrawingStateManager.history r) - 1
  ∧ DrawingStateManager.canvasState r
    = default Null (DrawingStateManager.state
                      <$> last (DrawingStateManager.history r)).
Proof.
  intros Hreach. revert k r.
  change (DrawingStateManager.all_rooms DrawingStateManager.in_sync (drawingStateManager s)).
  induction Hreach as [|now rnd t s _ IH]; [apply map_Forall_empty|].
  by apply step_in_sync.
Qed.

Lemma two_users_reachable : reachable two_users.
Proof.
  apply (reachable_step 2 "" (Connects bob)).
  apply (reachable_step 1 "" (Connects alice)). apply reachable_initial.
Qed.

Lemma server_history_in_sync_witness :
  let r := DrawingStateManager.Room (Str "data:image/png") []
             [DrawingStateManager.Entry (Str "data:image/png") 3 None] 0 1 in
  DrawingStateManager.historyIndex r
  = DrawingStateManager.len (DrawingStateManager.history r) - 1
  ∧ DrawingStateManager.canvasState r
    = default Null (DrawingStateManager.state
                      <$> last (DrawingStateManager.history r)).
Proof.
  apply (server_history_in_sync after_undo_event "default").
  - apply reachable_step, two_users_reachable.
  - vm_compute. reflexivity.
Defined.

(** X23. The router keeps everything under the one room id ['default']:
    in every state the server can reach, neither the drawing-state manager
    nor the room registry has an entry for any other room. *)
Theorem server_only_default_room (s : state) (k : string) :
  reachable s → k ≠ roomId →
  drawingStateManager s !! k = None
  ∧ roomManager s !! k = None.
Proof.
  intros Hreach Hk.
  induction Hreach as [|now rnd t s _ (Hd & Hr)]; [done|].
  destruct t as [c|c ev|c]; unfold step.
  - rewrite on_connection_eq. cbv zeta.
    cbn [fst drawingStateManager roomManager].
    rewrite RoomManagerMore.addUser_eq. cbn [fst].
    rewrite !lookup_insert_ne by done. split; [|done].
    unfold DrawingStateManager.getCanvasState, DrawingStateManager.initRoom.
    destruct (drawingStateManager s !! roomId); cbn [fst]; [done|].
    by rewrite lookup_insert_ne.
  - rewrite handle_state. cbn [drawingStateManager roomManager].
    split; [|done].
    destruct ev as [data|data|data|data|data|data| |]; try done.
    + destruct (get "path" data); [|done].
      rewrite DrawingStateFacts.addDrawing_eq. cbn [fst].
      by rewrite lookup_insert_ne.
    + destruct (get "canvasState" data) as [v|]; [|done].
      destruct (truthy v); [|done].
      rewrite DrawingStateFacts.setCanvasState_eq. by rewrite lookup_insert_ne.
    + destruct (get "canvasState" data) as [v|]; [|done].
      destruct (truthy v); [|done].
      rewrite DrawingStateFacts.setCanvasState_eq. by rewrite lookup_insert_ne.
    + rewrite DrawingStateFacts.clearCanvas_eq. cbn [fst].
      by rewrite lookup_insert_ne.
  - rewrite on_disconnect_eq. cbv zeta.
    cbn [fst drawingStateManager roomManager].
    split; [done|].
    unfold RoomManager.removeUser.
    destruct (roomManager s !! roomId) as [r|]; [|done].
    destruct (RoomManager.users r !! userId c); [|done].
    cbn [fst]. by rewrite lookup_insert_ne.
Qed.

Lemma server_only_default_room_witness :
  drawingStateManager after_undo_event !! "lobby" = None
  ∧ roomManager after_undo_event !! "lobby" = None.
Proof.
  apply (server_only_default_room after_undo_event "lobby").
  - apply reachable_step, two_users_reachable.
  - discriminate.
Defined.

(** The member map of the default room, empty when the room is unknown. *)
Lemma users_after_addUser now u rm :
  default ∅ (RoomManager.users
               <$> (RoomManager.addUser now roomId u rm).1 !! roomId)
  = <[RoomManager.id u := u]>
      (default ∅ (RoomManager.users <$> rm !! roomId)).
Proof.
  rewrite RoomManagerMore.addUser_eq. cbn [fst]. rewrite lookup_insert_eq.
  by destruct (rm !! roomId).
Qed.

Lemma users_after_removeUser uid rm :
  default ∅ (RoomManager.users
               <$> (RoomManager.removeUser roomId uid rm).1 !! roomId)
  = delete uid (default ∅ (RoomManager.users <$> rm !! roomId)).
Proof.
  unfold RoomManager.removeUser. destruct (rm !! roomId) as [r|] eqn:Er.
  - destruct (RoomManager.users r !! uid) eqn:Eu; cbn [fst].
    + by rewrite lookup_insert_eq.
    + rewrite Er. cbn. by rewrite delete_id.
  - cbn [fst]. rewrite Er. cbn. by rewrite delete_empty.
Qed.

Lemma reachable_users_dom s :
  reachable s →
  dom (default ∅ (RoomManager.users <$> roomManager s !! roomId))
  = members roomId s.
Proof.
  induction 1 as [|now rnd t s _ IH].
  { unfold initial, members. cbn [roomManager adapter].
    rewrite !lookup_empty. apply dom_empty_L. }
  destruct t as [c|c ev|c]; unfold step.
  - rewrite on_connection_eq. cbv zeta. cbn [fst roomManager].
    rewrite users_after_addUser, dom_insert_L, IH.
    by rewrite members_State, lookup_insert_eq.
  - rewrite handle_state. by cbn [roomManager].
  - rewrite on_disconnect_eq. cbv zeta. cbn [fst roomManager].
    rewrite users_after_removeUser, dom_delete_L, IH.
    by rewrite members_State, lookup_insert_eq.
Qed.

(** X24. The registry and Socket.io agree on who is in the room: in every
    state the server can reach, a user id is registered in the room exactly
    when the socket of that id has joined it, and the member count is the
    number of joined sockets. *)
Theorem registry_matches_membership (s : state) (uid : string) :
  reachable s →
  (RoomManager.hasUser roomId uid (roomManager s) = true
   ↔ uid ∈ members roomId s)
  ∧ RoomManager.getUserCount roomId (roomManager s) = size (members roomId s).
Proof.
  intros Hreach. rewrite <- (reachable_users_dom s Hreach).
  unfold RoomManager.hasUser, RoomManager.getUserCount.
  destruct (roomManager s !! roomId) as [r|]; cbn [fmap option_fmap option_map
    default from_option id].
  - split; [|by rewrite size_dom].
    rewrite bool_decide_eq_true. symmetry. apply elem_of_dom.
  - split; [|by rewrite dom_empty_L, size_empty].
    rewrite dom_empty_L. split; [done|]. intros H. by apply elem_of_empty in H.
Qed.

Lemma registry_matches_membership_witness :
  (RoomManager.hasUser roomId "alice" (roomManager two_users) = true
   ↔ "alice" ∈ members roomId two_users)
  ∧ RoomManager.getUserCount roomId (roomManager two_users)
    = size (members roomId two_users).
Proof.
  apply (registry_matches_membership two_users "alice").
  apply two_users_reachable.
Defined.

(** ** The drawing log *)

Lemma last_addDrawing_room now rnd u p r :
  last (DrawingStateManager.drawings
          (DrawingStateManager.addDrawing_room now rnd u p r))
  = Some (DrawingStateManager.Drawing u p (pretty now +:+ "_" +:+ rnd) now).
Proof.
  unfold DrawingStateManager.addDrawing_room.
  cbn [DrawingStateManager.drawings DrawingStateManager.set_drawings].
  case_decide as Hgt;
    cbn [DrawingStateManager.drawings DrawingStateManager.set_drawings];
    [|apply last_snoc].
  rewrite DrawingStateFacts.len_app in Hgt.
  unfold DrawingStateManager.maxHistorySize in *.
  rewrite DrawingStateMore.slice_from_last
    by (rewrite DrawingStateFacts.len_app; lia).
  rewrite drop_app_le.
  - apply last_snoc.
  - rewrite DrawingStateFacts.len_app.
    unfold DrawingStateManager.len in *. lia.
Qed.

(** X25. A draw-end event is logged: whatever its payload holds under
    [path] (undefined when the field is missing) becomes the path of the
    newest entry of the room's drawing log, under the sender's id. *)
Theorem draw_end_is_logged
    (now : Z) (rnd : string) (c : connection) (data path : value) (s : state) :
  get "path" data = Some path →
  ∃ d : DrawingStateManager.drawing,
    last (DrawingStateManager.getDrawings roomId
            (drawingStateManager (handle now rnd c (DrawEnd data) s).1.1))
    = Some d
    ∧ DrawingStateManager.d_userId d = userId c
    ∧ DrawingStateManager.d_path d = path.
Proof.
  intros Hpath. rewrite handle_state. cbn [drawingStateManager].
  rewrite Hpath, DrawingStateFacts.addDrawing_eq. cbn [fst].
  unfold DrawingStateManager.getDrawings. rewrite lookup_insert_eq.
  eexists. split; [apply last_addDrawing_room|]. by split.
Qed.

Lemma draw_end_is_logged_witness :
  ∃ d : DrawingStateManager.drawing,
    last (DrawingStateManager.getDrawings roomId
            (drawingStateManager
               (handle 3 "0.5" alice (DrawEnd (Obj [])) two_users).1.1))
    = Some d
    ∧ DrawingStateManager.d_userId d = userId alice
    ∧ DrawingStateManager.d_path d = Undefined.
Proof.
  apply (draw_end_is_logged 3 "0.5" alice (Obj []) Undefined two_users).
  reflexivity.
Defined.

End ServerMore.

(** * Events that lack a field or carry a wrong one *)
Module ServerRelay.

Import Js Server Scenarios ServerFacts.





End ServerRelay.

(** * Properties of the client's canvas history *)
Module CanvasManagerFacts.

Import Js CanvasManager.

Section canvas.
Context {image : Type}.
Variable white : image.
Implicit Types c : @canvas image.

Lemma len_eq (l : list image) : len l = DrawingStateManager.len l.
Proof. reflexivity. Qed.

(** What [saveState] leaves: the entries up to the cursor and the surface
    after them, without the oldest one at the cap; the cursor on the last
    entry. *)
Lemma saveState_eq c :
  -1 ≤ historyStep c < len (history c) →
  saveState c
  = (let h := take (Z.to_nat (historyStep c + 1)) (history c) ++ [pixels c] in
     if decide (historyStep c + 2 > 50)
     then Canvas (pixels c) (tail h) (historyStep c)
     else Canvas (pixels c) h (historyStep c + 1)).
Proof.
  intros Hb. unfold saveState. cbv zeta.
  rewrite DrawingStateFacts.slice_prefix by (rewrite <- len_eq; lia).
  assert (len (take (Z.to_nat (historyStep c + 1)) (history c) ++ [pixels c])
          = historyStep c + 2) as Hlen.
  { unfold len in *. rewrite length_app, length_take. simpl. lia. }
  rewrite Hlen.
  destruct (decide (historyStep c + 2 > 50)); [|done].
  f_equal. lia.
Qed.

Lemma saveState_facts c :
  -1 ≤ historyStep c < len (history c) → len (history c) ≤ 50 →
  0 ≤ historyStep (saveState c)
  ∧ historyStep (saveState c) = len (history (saveState c)) - 1
  ∧ len (history (saveState c)) ≤ 50
  ∧ pixels (saveState c) = pixels c
  ∧ last (history (saveState c)) = Some (pixels c).
Proof.
  intros Hb Hcap. rewrite saveState_eq by done. cbv zeta.
  assert (len (take (Z.to_nat (historyStep c + 1)) (history c))
          = historyStep c + 1) as Hlen.
  { unfold len in *. rewrite length_take. lia. }
  destruct (decide (historyStep c + 2 > 50));
    cbn [historyStep history pixels].
  - destruct (take (Z.to_nat (historyStep c + 1)) (history c)) as [|x l] eqn:E.
    { unfold len in Hlen. simpl in Hlen. lia. }
    cbn [tail app]. rewrite last_snoc.
    unfold len in *. rewrite length_app. simpl in *.
    repeat split; lia.
  - rewrite last_snoc. unfold len in *. rewrite length_app. simpl.
    repeat split; lia.
Qed.

(** An index on the last entry reads the last entry. *)
Lemma shows_last c :
  historyStep c = len (history c) - 1 → last (history c) = Some (pixels c) →
  shows c.
Proof.
  intros Hs Hl. unfold shows, index.
  assert (history c ≠ []) as Hne by (intros E; by rewrite E in Hl).
  assert (0 < len (history c)) as Hpos.
  { unfold len. destruct (history c); [done|]. simpl. lia. }
  case_decide; [lia|].
  rewrite last_lookup in Hl. rewrite <- Hl. f_equal. unfold len in *. lia.
Qed.

Lemma bounds_saveState c :
  -1 ≤ historyStep c < len (history c) → len (history c) ≤ 50 →
  bounds (saveState c).
Proof.
  intros Hb Hl. destruct (saveState_facts c Hb Hl) as (H0 & Hs & Hlen & _).
  unfold bounds. lia.
Qed.

Lemma bounds_act a c : bounds c → bounds (act white a c).
Proof.
  intros [Hb Hl]. destruct a as [p| | | | |[img|]]; cbn [act].
  - done.
  - apply bounds_saveState; [lia|done].
  - unfold undo. case_decide; [|done].
    destruct (index _ _); unfold bounds; cbn [fst historyStep history]; lia.
  - unfold redo. case_decide; [|done].
    destruct (index _ _); unfold bounds; cbn [fst historyStep history]; lia.
  - unfold clear. apply bounds_saveState; cbn [historyStep history]; [lia|done].
  - unfold loadState. apply bounds_saveState; cbn [historyStep history]; [lia|done].
  - done.
Qed.

Lemma reachable_bounds c : reachable white c → bounds c.
Proof.
  induction 1 as [|a c _ IH]; [|by apply bounds_act].
  apply bounds_saveState; unfold len; simpl; lia.
Qed.

Lemma shows_saveState c :
  -1 ≤ historyStep c < len (history c) → len (history c) ≤ 50 →
  shows (saveState c).
Proof.
  intros Hb Hl. destruct (saveState_facts c Hb Hl) as (_ & Hs & _ & Hp & Hlast).
  apply shows_last; [done|]. by rewrite Hp.
Qed.

(** X26. The client's history never holds more than 50 entries and is
    never empty, and the cursor is always on one of them, whatever is
    painted, saved, undone, redone, cleared or loaded: unlike on the
    server, clearing goes through [saveState] and is capped with it. *)
Theorem canvas_history_bounded (c : canvas) :
  reachable white c →
  0 ≤ historyStep c < len (history c) ∧ len (history c) ≤ 50.
Proof. apply reachable_bounds. Qed.

(** X27. After [saveState], [clear] and [loadState] of an image, the
    surface is what the entry at the cursor holds, and [clear] leaves it
    white; [undo] and [redo] never fail: either they move the cursor and
    put the entry there on the surface, or they return false and change
    nothing. *)
Theorem canvas_shows_cursor (c : canvas) (img : image) :
  reachable white c →
  shows (saveState c)
  ∧ (shows (clear white c) ∧ pixels (clear white c) = white)
  ∧ (shows (loadState (Some img) c) ∧ pixels (loadState (Some img) c) = img)
  ∧ ((undo c).2 = Returned true ∧ shows (undo c).1
        ∧ historyStep (undo c).1 = historyStep c - 1
     ∨ undo c = (c, Returned false) ∧ historyStep c = 0)
  ∧ ((redo c).2 = Returned true ∧ shows (redo c).1
        ∧ historyStep (redo c).1 = historyStep c + 1
     ∨ redo c = (c, Returned false) ∧ historyStep c = len (history c) - 1).
Proof.
  intros Hreach. destruct (reachable_bounds c Hreach) as [Hb Hl].
  split; [apply shows_saveState; [lia|done]|].
  split.
  { unfold clear. split.
    - apply shows_saveState; cbn [historyStep history]; [lia|done].
    - apply saveState_facts; cbn [historyStep history]; [lia|done]. }
  split.
  { unfold loadState. split.
    - apply shows_saveState; cbn [historyStep history]; [lia|done].
    - apply saveState_facts; cbn [historyStep history]; [lia|done]. }
  split.
  - unfold undo. case_decide as Hpos; [left|right; split; [done|lia]].
    destruct (DrawingStateFacts.index_Some_lt (history c) (historyStep c - 1))
      as [x Hx]; [rewrite <- len_eq; lia|].
    rewrite Hx. cbn [fst snd]. by repeat split.
  - unfold redo. case_decide as Hlt; [left|right; split; [done|lia]].
    destruct (DrawingStateFacts.index_Some_lt (history c) (historyStep c + 1))
      as [x Hx]; [rewrite <- len_eq; lia|].
    rewrite Hx. cbn [fst snd]. by repeat split.
Qed.

(** X28. Undo takes back a stroke: when the surface shows the entry at the
    cursor, painting on it, saving and undoing puts the surface back as it
    was, and a redo then shows the painted surface again. *)
Theorem undo_takes_back_stroke (c : canvas) (p : image) :
  reachable white c → shows c →
  let saved := saveState (paint p c) in
  (undo saved).2 = Returned true
  ∧ pixels (undo saved).1 = pixels c
  ∧ redo (undo saved).1 = (saved, Returned true).
Proof.
  intros Hreach Hshows. destruct (reachable_bounds c Hreach) as [Hb Hl].
  apply DrawingStateMore.index_Some in Hshows as [_ Hshows].
  cbv zeta. unfold paint.
  rewrite saveState_eq by (cbn [historyStep history]; lia).
  cbv zeta. cbn [historyStep history pixels].
  set (h := take (Z.to_nat (historyStep c + 1)) (history c)).
  assert (length h = Z.to_nat (historyStep c + 1)) as Hlen.
  { unfold h, len in *. rewrite length_take. lia. }
  assert (h !! Z.to_nat (historyStep c) = Some (pixels c)) as Hh.
  { unfold h. rewrite lookup_take_lt by lia. done. }
  destruct (decide (historyStep c + 2 > 50)) as [Hcap|Hcap].
  - assert (index (tail (h ++ [p])) (historyStep c - 1) = Some (pixels c)) as E1.
    { apply DrawingStateMore.index_Some. split; [lia|].
      rewrite lookup_tail.
      replace (S (Z.to_nat (historyStep c - 1))) with (Z.to_nat (historyStep c))
        by lia.
      rewrite lookup_app_l by lia. done. }
    assert (index (tail (h ++ [p])) (historyStep c) = Some p) as E2.
    { apply DrawingStateMore.index_Some. split; [lia|].
      rewrite lookup_tail.
      replace (S (Z.to_nat (historyStep c))) with (length h) by lia.
      by rewrite list_lookup_middle. }
    assert (len (tail (h ++ [p])) = historyStep c + 1) as E3.
    { unfold len. destruct h; [simpl in Hlen; lia|].
      cbn [tail app]. rewrite length_app. simpl in *. lia. }
    unfold undo. cbn [historyStep history pixels].
    destruct (decide (historyStep c > 0)); [|lia].
    rewrite E1. cbn [fst snd]. split; [done|]. split; [done|].
    unfold redo. cbn [historyStep history pixels]. rewrite E3.
    destruct (decide (historyStep c - 1 < historyStep c + 1 - 1)); [|lia].
    replace (historyStep c - 1 + 1) with (historyStep c) by lia.
    by rewrite E2.
  - assert (index (h ++ [p]) (historyStep c) = Some (pixels c)) as E1.
    { apply DrawingStateMore.index_Some. split; [lia|].
      rewrite lookup_app_l by lia. done. }
    assert (index (h ++ [p]) (historyStep c + 1) = Some p) as E2.
    { apply DrawingStateMore.index_Some. split; [lia|].
      replace (Z.to_nat (historyStep c + 1)) with (length h) by lia.
      by rewrite list_lookup_middle. }
    assert (len (h ++ [p]) = historyStep c + 2) as E3.
    { unfold len. rewrite length_app. simpl. lia. }
    unfold undo. cbn [historyStep history pixels].
    destruct (decide (historyStep c + 1 > 0)); [|lia].
    replace (historyStep c + 1 - 1) with (historyStep c) by lia.
    rewrite E1. cbn [fst snd]. split; [done|]. split; [done|].
    unfold redo. cbn [historyStep history pixels]. rewrite E3.
    destruct (decide (historyStep c < historyStep c + 2 - 1)); [|lia].
    by rewrite E2.
Qed.

End canvas.

(** A canvas of numbered images: white is 0, and 1 has been painted on the
    initial surface. *)
Lemma canvas_history_bounded_witness :
  let c := act 0%nat (Paint 1%nat) (initCanvas 0%nat) in
  0 ≤ historyStep c < len (history c) ∧ len (history c) ≤ 50.
Proof.
  apply (canvas_history_bounded 0%nat).
  apply reachable_act, reachable_init.
Defined.

Lemma canvas_shows_cursor_witness : shows (saveState (initCanvas 0%nat)).
Proof.
  exact (proj1 (canvas_shows_cursor 0%nat (initCanvas 0%nat) 1%nat
                  (reachable_init 0%nat))).
Defined.

Lemma undo_takes_back_stroke_witness :
  let saved := saveState (paint 1%nat (initCanvas 0%nat)) in
  (undo saved).2 = Returned true
  ∧ pixels (undo saved).1 = 0%nat
  ∧ redo (undo saved).1 = (saved, Returned true).
Proof.
  apply (undo_takes_back_stroke 0%nat (initCanvas 0%nat) 1%nat).
  - apply reachable_init.
  - vm_compute. reflexivity.
Defined.

End CanvasManagerFacts.
